(** * TorForge: traffic classification and leak-proof name resolution

    A shallow embedding of the bypass engine (glob compiler, country
    matcher, rule engine), of the synthetic address allocator (FakeDNS) and
    of the DNS-over-Tor resolver, together with the properties their
    specification states about them.

    Conventions.
    - Go strings are [string]; one [ascii] stands for one character (the
      texts handled here, domain names and patterns, are ASCII).
    - A byte is a [Z] in [0, 256); the wrap-around of [ip[i]++] is written
      out as [(b + 1) mod 256].
    - Go maps are [gmap]s, slices are lists.
    - A pointer receiver that may be nil is an [option]. *)

From Stdlib Require Import ZArith Ascii String List Lia.
From stdpp Require Import base option list gmap strings pretty.

Local Open Scope Z_scope.

(* ===================================================================== *)
(** * Go's [strings] package, as far as the sources use it               *)
(* ===================================================================== *)

Module GoStrings.

(** [len(s)] *)
Definition len (s : string) : nat := String.length s.

(** [s[n:]] *)
Fixpoint slice_from (n : nat) (s : string) : string :=
  match n, s with
  | O, _ => s
  | S n', String _ s' => slice_from n' s'
  | S _, EmptyString => EmptyString
  end.

(** [s[:n]] *)
Fixpoint slice_to (n : nat) (s : string) : string :=
  match n, s with
  | O, _ => EmptyString
  | S n', String c s' => String c (slice_to n' s')
  | S _, EmptyString => EmptyString
  end.

(** [strings.HasPrefix(s, prefix)]:
    [len(s) >= len(prefix) && s[:len(prefix)] == prefix] *)
Definition HasPrefix (s prefix : string) : bool :=
  bool_decide (len prefix ≤ len s)%nat
  && bool_decide (slice_to (len prefix) s = prefix).

(** [strings.HasSuffix(s, suffix)]:
    [len(s) >= len(suffix) && s[len(s)-len(suffix):] == suffix] *)
Definition HasSuffix (s suffix : string) : bool :=
  bool_decide (len suffix ≤ len s)%nat
  && bool_decide (slice_from (len s - len suffix) s = suffix).

(** [strings.TrimSuffix(s, suffix)] *)
Definition TrimSuffix (s suffix : string) : string :=
  if HasSuffix s suffix then slice_to (len s - len suffix) s else s.

(** Lower-casing of one character: only [A]..[Z] move. *)
Definition lower_char (c : ascii) : ascii :=
  let n := N_of_ascii c in
  if ((65 <=? n) && (n <=? 90))%N then ascii_of_N (n + 32) else c.

(** [strings.ToLower(s)] *)
Fixpoint ToLower (s : string) : string :=
  match s with
  | EmptyString => EmptyString
  | String c s' => String (lower_char c) (ToLower s')
  end.

End GoStrings.

(* ===================================================================== *)
(** * The fragment of Go's [regexp] that the glob compiler emits         *)
(* ===================================================================== *)

(** The glob compiler only ever hands [regexp.Compile] expressions of the
    shape [^ item* $] where an item is [.*], [.], an escaped punctuation
    character [\c] or a plain character.  [Compile] below parses exactly
    that fragment (anything else is reported as [None]); matching follows
    Go's default flags: [^] and [$] anchor at the two ends of the text, and
    [.] matches any character except the line feed. *)

Module Regexp.

Inductive node : Type :=
  | Lit (c : ascii)       (* a literal character *)
  | AnyNotNL              (* [.]  *)
  | StarAnyNotNL.         (* [.*] *)

(** A compiled expression: its source text ([re.String()]) and the items
    between the two anchors. *)
Record t : Type := mk { expr : string; prog : list node }.

Definition newline : ascii := "010"%char.

Definition not_newline (c : ascii) : bool := negb (Ascii.eqb c newline).

(** Characters that are operators when they stand unescaped. *)
Definition is_meta (c : ascii) : bool :=
  existsb (Ascii.eqb c)
    ["\"; "."; "+"; "*"; "?"; "("; ")"; "|"; "["; "]"; "{"; "}"; "^"; "$"]%char.

(** Punctuation may be escaped with a backslash (escaped letters and
    digits are character classes and lie outside the fragment). *)
Definition is_word_char (c : ascii) : bool :=
  let n := N_of_ascii c in
  (((48 <=? n) && (n <=? 57)) || ((65 <=? n) && (n <=? 90))
   || ((97 <=? n) && (n <=? 122)) || (n =? 95) || (128 <=? n))%N.

(** The items up to the closing [$]. *)
Fixpoint parse_items (s : string) : option (list node) :=
  match s with
  | EmptyString => None
  | String "$" EmptyString => Some []
  | String "\" (String c rest) =>
      if is_word_char c then None
      else cons (Lit c) <$> parse_items rest
  | String "." (String "*" rest) => cons StarAnyNotNL <$> parse_items rest
  | String "." rest => cons AnyNotNL <$> parse_items rest
  | String c rest =>
      if is_meta c then None else cons (Lit c) <$> parse_items rest
  end.

(** [regexp.Compile(expr)], [None] being the error result. *)
Definition Compile (e : string) : option t :=
  match e with
  | String "^" rest => mk e <$> parse_items rest
  | _ => None
  end.

(** Does the item sequence match the whole of [s]? *)
Fixpoint match_nodes (p : list node) (s : string) {struct p} : bool :=
  match p with
  | [] => match s with EmptyString => true | _ => false end
  | Lit c :: p' =>
      match s with
      | String c' s' => Ascii.eqb c c' && match_nodes p' s'
      | EmptyString => false
      end
  | AnyNotNL :: p' =>
      match s with
      | String c' s' => not_newline c' && match_nodes p' s'
      | EmptyString => false
      end
  | StarAnyNotNL :: p' =>
      (fix star (s : string) : bool :=
         match_nodes p' s
         || match s with
            | String c' s' => not_newline c' && star s'
            | EmptyString => false
            end) s
  end.

(** [re.MatchString(s)] *)
Definition MatchString (re : t) (s : string) : bool :=
  match_nodes (prog re) s.

(** [re.String()] *)
Definition String_ (re : t) : string := expr re.

End Regexp.

(* ===================================================================== *)
(** * Package [bypass]: glob compiler, country matcher, rule engine      *)
(* ===================================================================== *)

(** A Go call either returns or panics (nil dereference, write to a nil
    map). *)
Inductive outcome (A : Type) : Type :=
  | Returns (a : A)
  | Panics (msg : string).
Arguments Returns {A} a.
Arguments Panics {A} msg.

(** [net.IP] is a byte slice, [net.IPNet] an address with its mask. *)
Definition IP : Type := list Z.
Record IPNet : Type := mkIPNet { net_IP : IP; net_Mask : list Z }.

(** * Go's [net] package: address forms and block membership *)

Module GoNet.

Definition IPv4len : nat := 4.
Definition IPv6len : nat := 16.

(** [ip.To4()]: the four-byte form of an IPv4 address, also when it is
    given in its sixteen-byte (IPv4-mapped) form; [None] is nil. *)
Definition To4 (ip : IP) : option IP :=
  if bool_decide (length ip = IPv4len) then Some ip
  else if bool_decide (length ip = IPv6len)
          && forallb (Z.eqb 0) (take 10 ip)
          && bool_decide (ip !! 10%nat = Some 255)
          && bool_decide (ip !! 11%nat = Some 255)
  then Some (drop 12 ip)
  else None.

(** [networkNumberAndMask(n)]; [None] stands for the pair [nil, nil]. *)
Definition networkNumberAndMask (n : IPNet) : option (IP * list Z) :=
  let ip :=
    match To4 (net_IP n) with
    | Some v4 => Some v4
    | None =>
        if bool_decide (length (net_IP n) ≠ IPv6len) then None
        else Some (net_IP n)
    end in
  match ip with
  | None => None
  | Some ip =>
      if bool_decide (length (net_Mask n) = IPv4len) then
        if bool_decide (length ip ≠ IPv4len) then None
        else Some (ip, net_Mask n)
      else if bool_decide (length (net_Mask n) = IPv6len) then
        if bool_decide (length ip = IPv4len)
        then Some (ip, drop 12 (net_Mask n))
        else Some (ip, net_Mask n)
      else None
  end.

(** The comparison loop of [Contains]: [nn[i]&m[i] != ip[i]&m[i]] ends
    it with [false]. *)
Fixpoint masked_equal (nn m ip : list Z) : bool :=
  match nn, m, ip with
  | a :: nn', k :: m', b :: ip' =>
      if bool_decide (Z.land a k ≠ Z.land b k) then false
      else masked_equal nn' m' ip'
  | _, _, _ => true
  end.

(** [n.Contains(ip)] *)
Definition Contains (n : IPNet) (ip : IP) : bool :=
  let '(nn, m) := default ([], []) (networkNumberAndMask n) in
  let ip := default ip (To4 ip) in
  if bool_decide (length ip ≠ length nn) then false
  else masked_equal nn m ip.

(** The mask of an IPv4 block with prefix length [ones] (the value of
    [net.CIDRMask(ones, 32)]), byte by byte. *)
Definition mask_byte (ones : Z) : Z :=
  if ones <=? 0 then 0
  else if 8 <=? ones then 255
  else 256 - 2 ^ (8 - ones).

Definition prefix_mask4 (ones : Z) : list Z :=
  [mask_byte ones; mask_byte (ones - 8); mask_byte (ones - 16);
   mask_byte (ones - 24)].

End GoNet.

Module Bypass.

Import GoStrings.

(** ** compileGlobToRegex *)

(** What the [switch] writes to the builder for one pattern character. *)
Definition glob_piece (c : ascii) : string :=
  match c with
  | "*"%char => ".*"
  | "?"%char => "."
  | "."%char => "\."
  | "["%char | "]"%char | "("%char | ")"%char | "{"%char | "}"%char
  | "^"%char | "$"%char | "+"%char | "|"%char | "\"%char =>
      String "\" (String c EmptyString)
  | _ => String c EmptyString
  end.

(** The loop over the pattern. *)
Fixpoint glob_body (pattern : string) : string :=
  match pattern with
  | EmptyString => EmptyString
  | String c rest => glob_piece c +:+ glob_body rest
  end.

(** The text handed to [regexp.Compile]. *)
Definition glob_regex_source (pattern : string) : string :=
  "^" +:+ glob_body pattern +:+ "$".

Definition compileGlobToRegex (pattern : string) : option Regexp.t :=
  Regexp.Compile (glob_regex_source pattern).

(** ** GeoIPMatcher *)

(** The geolocation database handle ([*geoip2.Reader]): a country lookup
    that may fail, and the result of closing it. *)
Record Reader : Type := mkReader {
  Country : IP → option string;
  CloseResult : option string
}.

Record GeoIPMatcher : Type := mkGeoIPMatcher {
  db : option Reader;
  countries : gmap string bool
}.

Definition nil_deref : string :=
  "invalid memory address or nil pointer dereference".

Section GeoIP.
(** [geoip2.Open]: the file system decides which paths hold a database. *)
Variable geoip2_Open : string → option Reader.

Definition defaultPaths : list string :=
  [ "/usr/share/GeoIP/GeoLite2-Country.mmdb";
    "/var/lib/GeoIP/GeoLite2-Country.mmdb";
    "./GeoLite2-Country.mmdb" ].

(** The search loop: the first default path that opens becomes
    [dbPath]. *)
Fixpoint first_default (paths : list string) (dbPath : string) : string :=
  match paths with
  | [] => dbPath
  | p :: rest =>
      match geoip2_Open p with
      | Some _ => p
      | None => first_default rest dbPath
      end
  end.

Definition build_country_set (cs : list string) : gmap string bool :=
  foldl (λ m c, <[c := true]> m) ∅ cs.

(** [NewGeoIPMatcher]: the matcher (nil when no database is found) and
    the error. *)
Definition NewGeoIPMatcher (dbPath : string) (cs : list string)
  : option GeoIPMatcher * option string :=
  let dbPath :=
    if bool_decide (dbPath = "") then first_default defaultPaths dbPath
    else dbPath in
  if bool_decide (dbPath = "") then (None, None)
  else
    match geoip2_Open dbPath with
    | None => (None, Some "open failed")
    | Some d => (Some (mkGeoIPMatcher (Some d) (build_country_set cs)), None)
    end.
End GeoIP.

(** The methods take the receiver as an [option]: [None] is the nil
    pointer. *)
Definition Match (g : option GeoIPMatcher) (ip : IP) : outcome (string * bool) :=
  match g with
  | None => Returns ("", false)
  | Some m =>
      match db m with
      | None => Returns ("", false)
      | Some d =>
          match Country d ip with
          | None => Returns ("", false)
          | Some country =>
              if default false (countries m !! country)
              then Returns (country, true)
              else Returns ("", false)
          end
      end
  end.

Definition GetCountry (g : option GeoIPMatcher) (ip : IP) : outcome string :=
  match g with
  | None => Returns ""
  | Some m =>
      match db m with
      | None => Returns ""
      | Some d =>
          match Country d ip with
          | None => Returns ""
          | Some country => Returns country
          end
      end
  end.

(** [g.mu.Lock()] is the first statement: on a nil receiver it
    dereferences nil. *)
Definition AddCountry (g : option GeoIPMatcher) (code : string)
  : outcome GeoIPMatcher :=
  match g with
  | None => Panics nil_deref
  | Some m => Returns (mkGeoIPMatcher (db m) (<[code := true]> (countries m)))
  end.

Definition RemoveCountry (g : option GeoIPMatcher) (code : string)
  : outcome GeoIPMatcher :=
  match g with
  | None => Panics nil_deref
  | Some m => Returns (mkGeoIPMatcher (db m) (delete code (countries m)))
  end.

Definition Close (g : option GeoIPMatcher) : outcome (option string) :=
  match g with
  | None => Returns None
  | Some m =>
      match db m with
      | None => Returns None
      | Some d => Returns (CloseResult d)
      end
  end.

(** ** Engine *)

(** [RuleType] and [Action] are string types; a rule read from the
    configuration may carry any string. *)
Definition RuleType : Type := string.
Definition RuleTypeDomain : RuleType := "domain".
Definition RuleTypeCIDR : RuleType := "cidr".
Definition RuleTypePort : RuleType := "port".
Definition RuleTypeProtocol : RuleType := "protocol".
Definition RuleTypeApp : RuleType := "application".
Definition RuleTypeGeoIP : RuleType := "geoip".

Definition Action : Type := string.
Definition ActionBypass : Action := "bypass".
Definition ActionTor : Action := "tor".

(** The [interface{}] slot of a rule: empty, a regexp or an address
    block. *)
Inductive compiled_matcher : Type :=
  | NoMatcher
  | RegexpMatcher (re : Regexp.t)
  | IPNetMatcher (n : IPNet).

Record Rule : Type := mkRule {
  Name : string;
  Type_ : RuleType;
  Pattern : string;
  Action_ : Action;
  Description : string;
  compiled : compiled_matcher
}.

Record MatchResult : Type := mkMatchResult {
  Matched : bool;
  Rule_ : option Rule;
  ResultAction : Action;
  Reason : string
}.

(** [MatchResult{Matched: false}] *)
Definition not_matched : MatchResult := mkMatchResult false None "" "".

(** The configuration records (package [config]), as the engine reads
    them. *)
Record CustomRule : Type := mkCustomRule {
  cr_Name : string;
  cr_Type : string;
  cr_Pattern : string;
  cr_Action : string;
  cr_Description : string
}.

Record GeoIPConfig : Type := mkGeoIPConfig {
  geo_Enabled : bool;
  geo_DatabasePath : string;
  geo_Countries : list string
}.

Record BypassConfig : Type := mkBypassConfig {
  Enabled : bool;
  Domains : list string;
  CIDRs : list string;
  Protocols : list string;
  Applications : list string;
  CustomRules : list CustomRule;
  GeoIP : GeoIPConfig
}.

Record Engine : Type := mkEngine {
  cfg : BypassConfig;
  domainPatterns : list Regexp.t;
  cidrNets : list IPNet;
  protocols : gmap string bool;
  applications : gmap string bool;
  customRules : list Rule;
  geoIP : option GeoIPMatcher
}.

Section EngineConstruction.
(** [net.ParseCIDR] (the network part of its result) and [geoip2.Open]. *)
Variable ParseCIDR : string → option IPNet.
Variable geoip2_Open : string → option Reader.

(** [compileRule]: the rule with its matcher filled in, or the error. *)
Definition compileRule (r : Rule) : option Rule :=
  if bool_decide (Type_ r = RuleTypeDomain) then
    match compileGlobToRegex (Pattern r) with
    | None => None
    | Some re =>
        Some (mkRule (Name r) (Type_ r) (Pattern r) (Action_ r) (Description r)
                (RegexpMatcher re))
    end
  else if bool_decide (Type_ r = RuleTypeCIDR) then
    match ParseCIDR (Pattern r) with
    | None => None
    | Some n =>
        Some (mkRule (Name r) (Type_ r) (Pattern r) (Action_ r) (Description r)
                (IPNetMatcher n))
    end
  else Some r.

(** The four loops of [compileRules]; an entry that fails to compile is
    logged and skipped. *)
Fixpoint compile_domains (ps : list string) (acc : list Regexp.t) : list Regexp.t :=
  match ps with
  | [] => acc
  | pattern :: rest =>
      match compileGlobToRegex pattern with
      | None => compile_domains rest acc
      | Some re => compile_domains rest (acc ++ [re])
      end
  end.

Fixpoint parse_cidrs (cs : list string) (acc : list IPNet) : list IPNet :=
  match cs with
  | [] => acc
  | cidr :: rest =>
      match ParseCIDR cidr with
      | None => parse_cidrs rest acc
      | Some n => parse_cidrs rest (acc ++ [n])
      end
  end.

Definition build_set (names : list string) (m : gmap string bool) : gmap string bool :=
  foldl (λ m n, <[ToLower n := true]> m) m names.

Fixpoint compile_custom (rs : list CustomRule) (acc : list Rule) : list Rule :=
  match rs with
  | [] => acc
  | r :: rest =>
      let rule := mkRule (cr_Name r) (cr_Type r) (cr_Pattern r) (cr_Action r)
                    (cr_Description r) NoMatcher in
      match compileRule rule with
      | None => compile_custom rest acc
      | Some rule' => compile_custom rest (acc ++ [rule'])
      end
  end.

Definition compileRules (e : Engine) : Engine :=
  let c := cfg e in
  let geo :=
    if geo_Enabled (GeoIP c) then
      match NewGeoIPMatcher geoip2_Open (geo_DatabasePath (GeoIP c))
              (geo_Countries (GeoIP c)) with
      | (_, Some _) => geoIP e
      | (g, None) => g
      end
    else geoIP e in
  mkEngine c
    (compile_domains (Domains c) (domainPatterns e))
    (parse_cidrs (CIDRs c) (cidrNets e))
    (build_set (Protocols c) (protocols e))
    (build_set (Applications c) (applications e))
    (compile_custom (CustomRules c) (customRules e))
    geo.

(** [NewEngine]; [compileRules] never reports an error. *)
Definition NewEngine (c : BypassConfig) : Engine :=
  compileRules (mkEngine c [] [] ∅ ∅ [] None).

(** [AddRule]: the engine with the rule appended, or the compile error. *)
Definition AddRule (e : Engine) (rule : Rule) : option Engine :=
  match compileRule rule with
  | None => None
  | Some rule' =>
      Some (mkEngine (cfg e) (domainPatterns e) (cidrNets e) (protocols e)
              (applications e) (customRules e ++ [rule']) (geoIP e))
  end.

End EngineConstruction.

(** The first loop of [MatchDomain]: [Some] is an early [return]. *)
Fixpoint match_patterns (res : list Regexp.t) (domain : string) : option MatchResult :=
  match res with
  | [] => None
  | re :: rest =>
      if Regexp.MatchString re domain then
        Some (mkMatchResult true None ActionBypass
                ("matches pattern " +:+ Regexp.String_ re))
      else match_patterns rest domain
  end.

(** The second loop. *)
Fixpoint match_custom (rules : list Rule) (domain : string) : option MatchResult :=
  match rules with
  | [] => None
  | rule :: rest =>
      if bool_decide (Type_ rule = RuleTypeDomain) then
        match compiled rule with
        | RegexpMatcher re =>
            if Regexp.MatchString re domain then
              Some (mkMatchResult true (Some rule) (Action_ rule) (Description rule))
            else match_custom rest domain
        | _ => match_custom rest domain
        end
      else match_custom rest domain
  end.

Definition MatchDomain (e : Engine) (domain : string) : MatchResult :=
  if negb (Enabled (cfg e)) then not_matched
  else
    let domain := ToLower domain in
    match match_patterns (domainPatterns e) domain with
    | Some r => r
    | None =>
        match match_custom (customRules e) domain with
        | Some r => r
        | None => not_matched
        end
    end.

(** ** The contract of [MatchDomain], in the specification's words *)

(** A custom rule applies to a (lower-cased) name when it is of type
    [domain] and its compiled pattern matches. *)
Definition domain_rule_applies (d : string) (r : Rule) : bool :=
  bool_decide (Type_ r = RuleTypeDomain)
  && match compiled r with
     | RegexpMatcher re => Regexp.MatchString re d
     | _ => false
     end.

Definition MatchDomain_spec (e : Engine) (name : string) : MatchResult :=
  if Enabled (cfg e) then
    let d := ToLower name in
    match List.find (λ re, Regexp.MatchString re d) (domainPatterns e) with
    | Some re =>
        mkMatchResult true None ActionBypass ("matches pattern " +:+ Regexp.expr re)
    | None =>
        match List.find (domain_rule_applies d) (customRules e) with
        | Some r => mkMatchResult true (Some r) (Action_ r) (Description r)
        | None => not_matched
        end
    end
  else not_matched.

(** ** Glob patterns, in the specification's words *)



(** The item a pattern character compiles to. *)
Definition glob_node (c : ascii) : Regexp.node :=
  match c with
  | "*"%char => Regexp.StarAnyNotNL
  | "?"%char => Regexp.AnyNotNL
  | _ => Regexp.Lit c
  end.

Fixpoint glob_nodes (pattern : string) : list Regexp.node :=
  match pattern with
  | EmptyString => []
  | String c rest => glob_node c :: glob_nodes rest
  end.

(** The glob compiler followed by the matcher: does [pattern] accept
    [s]?  (A pattern that does not compile accepts nothing.) *)
Definition glob_accepts (pattern s : string) : bool :=
  match compileGlobToRegex pattern with
  | Some re => Regexp.MatchString re s
  | None => false
  end.

(** Counting dots: in a text, and among the literal items of a program. *)
Fixpoint count_dots (s : string) : nat :=
  match s with
  | EmptyString => 0
  | String c rest => (if Ascii.eqb c "."%char then 1 else 0) + count_dots rest
  end%nat.

Fixpoint count_literal_dots (p : list Regexp.node) : nat :=
  match p with
  | [] => 0
  | Regexp.Lit c :: rest =>
      (if Ascii.eqb c "."%char then 1 else 0) + count_literal_dots rest
  | _ :: rest => count_literal_dots rest
  end%nat.

(** ** The other queries and the rule mutations of the engine *)

Section MatchIP.
(** [ipNet.String()], the text of a block in the [Reason]. *)
Variable IPNet_String : IPNet → string.

(** The first loop of [MatchIP]. *)
Fixpoint match_cidrs (nets : list IPNet) (ip : IP) : option MatchResult :=
  match nets with
  | [] => None
  | ipNet :: rest =>
      if GoNet.Contains ipNet ip then
        Some (mkMatchResult true None ActionBypass
                ("matches CIDR " +:+ IPNet_String ipNet))
      else match_cidrs rest ip
  end.

(** The country check; a nil matcher is skipped. *)
Definition match_country (g : option GeoIPMatcher) (ip : IP) : option MatchResult :=
  match g with
  | None => None
  | Some _ =>
      match Match g ip with
      | Returns (country, true) =>
          Some (mkMatchResult true None ActionBypass
                  ("matches country " +:+ country))
      | _ => None
      end
  end.

(** The loop over the custom rules of type [cidr]. *)
Fixpoint match_custom_cidr (rules : list Rule) (ip : IP) : option MatchResult :=
  match rules with
  | [] => None
  | rule :: rest =>
      if bool_decide (Type_ rule = RuleTypeCIDR) then
        match compiled rule with
        | IPNetMatcher ipNet =>
            if GoNet.Contains ipNet ip then
              Some (mkMatchResult true (Some rule) (Action_ rule) (Description rule))
            else match_custom_cidr rest ip
        | _ => match_custom_cidr rest ip
        end
      else match_custom_cidr rest ip
  end.

(** [MatchIP] *)
Definition MatchIP (e : Engine) (ip : IP) : MatchResult :=
  if negb (Enabled (cfg e)) then not_matched
  else
    match match_cidrs (cidrNets e) ip with
    | Some r => r
    | None =>
        match match_country (geoIP e) ip with
        | Some r => r
        | None =>
            match match_custom_cidr (customRules e) ip with
            | Some r => r
            | None => not_matched
            end
        end
    end.
End MatchIP.



(** The loop of [RemoveRule]: the rules without the first one of the
    given name, or [None] when no rule carries it. *)
Fixpoint remove_first (name : string) (rules : list Rule) : option (list Rule) :=
  match rules with
  | [] => None
  | r :: rest =>
      if bool_decide (Name r = name) then Some rest
      else cons r <$> remove_first name rest
  end.

(** [RemoveRule]: the result and the engine afterwards. *)
Definition RemoveRule (e : Engine) (name : string) : bool * Engine :=
  match remove_first name (customRules e) with
  | Some rules =>
      (true, mkEngine (cfg e) (domainPatterns e) (cidrNets e) (protocols e)
               (applications e) rules (geoIP e))
  | None => (false, e)
  end.


(** Has the text an upper-case letter [A]..[Z]? *)
Definition is_upper (c : ascii) : bool :=
  let n := N_of_ascii c in ((65 <=? n) && (n <=? 90))%N.

Fixpoint has_upper (s : string) : bool :=
  match s with
  | EmptyString => false
  | String c rest => is_upper c || has_upper rest
  end.

(** ** Notions used to state the engine's properties *)

(** Does a custom rule apply to an address in the last loop of
    [MatchIP]? *)
Definition cidr_rule_applies (ip : IP) (r : Rule) : bool :=
  bool_decide (Type_ r = RuleTypeCIDR)
  && match compiled r with
     | IPNetMatcher n => GoNet.Contains n ip
     | _ => false
     end.



End Bypass.

(* ===================================================================== *)
(** * Package [dns] (miekg): messages and the helpers the handlers call  *)
(* ===================================================================== *)

Module Dns.

Definition RcodeSuccess : Z := 0.
Definition RcodeFormatError : Z := 1.
Definition RcodeServerFailure : Z := 2.
Definition RcodeNameError : Z := 3.

Definition OpcodeQuery : Z := 0.

Definition TypeA : Z := 1.
Definition TypePTR : Z := 12.
Definition TypeAAAA : Z := 28.
Definition ClassINET : Z := 1.

Record Question : Type := mkQuestion {
  q_Name : string;
  Qtype : Z;
  Qclass : Z
}.

Record RR_Header : Type := mkHeader {
  hdr_Name : string;
  Rrtype : Z;
  Class : Z;
  Ttl : Z
}.

Inductive RR : Type :=
  | RR_A (hdr : RR_Header) (a : IP)
  | RR_PTR (hdr : RR_Header) (ptr : string).

Record Msg : Type := mkMsg {
  Id : Z;
  Response : bool;
  Opcode : Z;
  Authoritative : bool;
  Truncated : bool;
  RecursionDesired : bool;
  RecursionAvailable : bool;
  Zero : bool;
  AuthenticatedData : bool;
  CheckingDisabled : bool;
  Rcode : Z;
  Questions : list Question;
  Answer : list RR;
  Ns : list RR;
  Extra : list RR
}.

(** [new(dns.Msg)] *)
Definition new_Msg : Msg :=
  mkMsg 0 false 0 false false false false false false false 0 [] [] [] [].

(** [m.SetReply(request)] *)
Definition SetReply (m request : Msg) : Msg :=
  let is_query := bool_decide (Opcode request = OpcodeQuery) in
  mkMsg (Id request) true (Opcode request)
    (Authoritative m) (Truncated m)
    (if is_query then RecursionDesired request else RecursionDesired m)
    (RecursionAvailable m) (Zero m) (AuthenticatedData m)
    (if is_query then CheckingDisabled request else CheckingDisabled m)
    RcodeSuccess
    (match Questions request with
     | q :: _ => [q]
     | [] => Questions m
     end)
    (Answer m) (Ns m) (Extra m).

Definition with_Rcode (m : Msg) (rcode : Z) : Msg :=
  mkMsg (Id m) (Response m) (Opcode m) (Authoritative m) (Truncated m)
    (RecursionDesired m) (RecursionAvailable m) (Zero m)
    (AuthenticatedData m) (CheckingDisabled m) rcode
    (Questions m) (Answer m) (Ns m) (Extra m).

Definition with_Id (m : Msg) (id : Z) : Msg :=
  mkMsg id (Response m) (Opcode m) (Authoritative m) (Truncated m)
    (RecursionDesired m) (RecursionAvailable m) (Zero m)
    (AuthenticatedData m) (CheckingDisabled m) (Rcode m)
    (Questions m) (Answer m) (Ns m) (Extra m).

Definition with_Authoritative (m : Msg) (b : bool) : Msg :=
  mkMsg (Id m) (Response m) (Opcode m) b (Truncated m)
    (RecursionDesired m) (RecursionAvailable m) (Zero m)
    (AuthenticatedData m) (CheckingDisabled m) (Rcode m)
    (Questions m) (Answer m) (Ns m) (Extra m).

Definition append_Answer (m : Msg) (rr : RR) : Msg :=
  mkMsg (Id m) (Response m) (Opcode m) (Authoritative m) (Truncated m)
    (RecursionDesired m) (RecursionAvailable m) (Zero m)
    (AuthenticatedData m) (CheckingDisabled m) (Rcode m)
    (Questions m) (Answer m ++ [rr]) (Ns m) (Extra m).

(** [m.SetRcode(request, rcode)] *)
Definition SetRcode (m request : Msg) (rcode : Z) : Msg :=
  with_Rcode (SetReply m request) rcode.

(** The number of backslashes a string starts with. *)
Fixpoint leading_backslashes (s : string) : nat :=
  match s with
  | String "\" rest => S (leading_backslashes rest)
  | _ => O
  end.

(** [dns.IsFqdn]: the name ends in a dot that is not escaped. *)
Definition IsFqdn (s : string) : bool :=
  match String.rev s with
  | String "." before => Nat.even (leading_backslashes before)
  | _ => false
  end.

(** [dns.Fqdn] *)
Definition Fqdn (s : string) : string :=
  if IsFqdn s then s else s +:+ ".".

(** [dns.CanonicalName]: fully qualified, with [A]..[Z] lower-cased. *)
Definition CanonicalName (s : string) : string :=
  GoStrings.ToLower (Fqdn s).

End Dns.

(* ===================================================================== *)
(** * Package [netfilter]: FakeDNS and the DNS-over-Tor resolver         *)
(* ===================================================================== *)

Module Netfilter.

Import GoStrings.

(** ** Handlers as computations

    A handler reads the outside world (answers of upstream servers, the
    clock), updates the state of its server and leaves a trace of what it
    sent.  It may panic. *)

Inductive event : Type :=
| Exchanged (server : string) (req : Dns.Msg)  (* [client.Exchange(req, server)] *)
| Wrote (m : Dns.Msg).                         (* [w.WriteMsg(m)] *)

(** The world answers an exchange ([None]: timeout or transport error) and
    tells the time in nanoseconds; both may depend on what happened so
    far. *)
Record World : Type := mkWorld {
  exchange_result : list event → string → Dns.Msg → option Dns.Msg;
  clock : list event → Z
}.

Definition io (S A : Type) : Type :=
  World → S → list event → outcome A * S * list event.

#[export] Instance io_ret {S} : MRet (io S) := λ A a _ s tr, (Returns a, s, tr).

#[export] Instance io_bind {S} : MBind (io S) := λ A B k c w s tr,
  match c w s tr with
  | (Returns a, s', tr') => k a w s' tr'
  | (Panics msg, s', tr') => (Panics msg, s', tr')
  end.

Definition io_panic {S A} (msg : string) : io S A := λ _ s tr, (Panics msg, s, tr).
Definition io_get {S} : io S S := λ _ s tr, (Returns s, s, tr).
Definition io_put {S} (s : S) : io S unit := λ _ _ tr, (Returns tt, s, tr).
Definition io_now {S} : io S Z := λ w s tr, (Returns (clock w tr), s, tr).

(** [client.Exchange(req, server)] *)
Definition Exchange {S} (req : Dns.Msg) (server : string) : io S (option Dns.Msg) :=
  λ w s tr, (Returns (exchange_result w tr server req), s, tr ++ [Exchanged server req]).

(** [w.WriteMsg(m)] *)
Definition WriteMsg {S} (m : Dns.Msg) : io S unit :=
  λ _ s tr, (Returns tt, s, tr ++ [Wrote m]).

(** [dns.HandleFailed(w, r)] *)
Definition HandleFailed {S} (r : Dns.Msg) : io S unit :=
  WriteMsg (Dns.SetRcode Dns.new_Msg r Dns.RcodeServerFailure).

(** What a handler run sent back, and where it sent queries. *)
Definition replies (tr : list event) : list Dns.Msg :=
  omap (λ e, match e with Wrote m => Some m | _ => None end) tr.

Definition queried_servers (tr : list event) : list string :=
  omap (λ e, match e with Exchanged s _ => Some s | _ => None end) tr.

(** ** fakedns.go *)

Record FakeDNSConfig : Type := mkFakeDNSConfig {
  cfg_ListenAddr : string;
  cfg_FakeSubnet : string;
  cfg_TTL : Z
}.

Record FakeDNSServer : Type := mkFakeDNSServer {
  fd_running : bool;
  listenAddr : string;
  fakeSubnet : IPNet;
  mappings : gmap string IP;       (* domain -> fake IP *)
  reverseMaps : gmap string string; (* fake IP -> domain *)
  nextIP : IP;
  ttl : Z
}.

(** The loop of [incrementIP], entered with [n = i + 1]. *)
Fixpoint incrementIP_from (n : nat) (ip : IP) : IP :=
  match n with
  | O => ip
  | S i =>
      match ip !! i with
      | None => ip
      | Some b =>
          let b' := (b + 1) mod 256 in
          let ip' := <[i := b']> ip in
          if 0 <? b' then ip' else incrementIP_from i ip'
      end
  end.

Definition incrementIP (ip : IP) : IP := incrementIP_from (length ip) ip.

(** [ip.String()] for a four-byte address: dotted decimal.  (The allocator
    is modelled for IPv4 blocks; other lengths do not occur.) *)
Definition IP_String (ip : IP) : string :=
  match ip with
  | [a; b; c; d] =>
      pretty a +:+ "." +:+ pretty b +:+ "." +:+ pretty c +:+ "." +:+ pretty d
  | _ => "?"
  end.

Section FakeDNSConstruction.
Variable ParseCIDR : string → option IPNet.

(** [NewFakeDNSServer]; [None] is the "invalid fake subnet" error. *)
Definition NewFakeDNSServer (cfg : FakeDNSConfig) : option FakeDNSServer :=
  match ParseCIDR (cfg_FakeSubnet cfg) with
  | None => None
  | Some subnet =>
      let startIP := incrementIP (net_IP subnet) in
      Some (mkFakeDNSServer false (cfg_ListenAddr cfg) subnet ∅ ∅ startIP (cfg_TTL cfg))
  end.
End FakeDNSConstruction.

(** [getFakeIP]: the address and the server afterwards. *)
Definition getFakeIP (f : FakeDNSServer) (domain : string) : IP * FakeDNSServer :=
  let domain := Dns.CanonicalName domain in
  match mappings f !! domain with
  | Some ip => (ip, f)
  | None =>
      let fakeIP := nextIP f in
      (fakeIP,
       mkFakeDNSServer (fd_running f) (listenAddr f) (fakeSubnet f)
         (<[domain := fakeIP]> (mappings f))
         (<[IP_String fakeIP := domain]> (reverseMaps f))
         (incrementIP (nextIP f))
         (ttl f))
  end.

Definition GetDomainForIP (f : FakeDNSServer) (ip : IP) : string :=
  default "" (reverseMaps f !! IP_String ip).

Definition GetMappingCount (f : FakeDNSServer) : nat := size (mappings f).

(** [splitDNSName]: the loop with its two accumulators. *)
Fixpoint splitDNSName_go (s : string) (parts : list string) (current : string)
  : list string :=
  match s with
  | EmptyString =>
      if bool_decide (current ≠ "") then parts ++ [current] else parts
  | String c rest =>
      if Ascii.eqb c "."%char then
        if bool_decide (current ≠ "")
        then splitDNSName_go rest (parts ++ [current]) ""
        else splitDNSName_go rest parts current
      else splitDNSName_go rest parts (current +:+ String c "")
  end.

Definition splitDNSName (s : string) : list string := splitDNSName_go s [] "".

Definition ptrToIP (ptr : string) : string :=
  let ptr := Dns.CanonicalName ptr in
  if bool_decide (len ptr < 14)%nat then ""
  else if bool_decide (slice_from (len ptr - 14) ptr ≠ ".in-addr.arpa.") then ""
  else
    let ptr := slice_to (len ptr - 14) ptr in
    match splitDNSName ptr with
    | [p0; p1; p2; p3] => p3 +:+ "." +:+ p2 +:+ "." +:+ p1 +:+ "." +:+ p0
    | _ => ""
    end.

Definition getReverseDomain (f : FakeDNSServer) (ptrName : string) : string :=
  let ip := ptrToIP ptrName in
  if bool_decide (ip = "") then "" else default "" (reverseMaps f !! ip).

(** One turn of the loop over the questions. *)
Definition answer_question (q : Dns.Question) (st : Dns.Msg * FakeDNSServer)
  : Dns.Msg * FakeDNSServer :=
  let '(m, f) := st in
  if bool_decide (Dns.Qtype q = Dns.TypeA) then
    let '(fakeIP, f') := getFakeIP f (Dns.q_Name q) in
    let rr := Dns.RR_A (Dns.mkHeader (Dns.q_Name q) Dns.TypeA Dns.ClassINET (ttl f)) fakeIP in
    (Dns.append_Answer m rr, f')
  else if bool_decide (Dns.Qtype q = Dns.TypeAAAA) then (m, f)
  else if bool_decide (Dns.Qtype q = Dns.TypePTR) then
    let domain := getReverseDomain f (Dns.q_Name q) in
    if bool_decide (domain ≠ "") then
      let rr := Dns.RR_PTR (Dns.mkHeader (Dns.q_Name q) Dns.TypePTR Dns.ClassINET (ttl f)) domain in
      (Dns.append_Answer m rr, f)
    else (m, f)
  else (m, f).

(** [FakeDNSServer.handleDNS] *)
Definition FakeDNS_handleDNS (r : Dns.Msg) : io FakeDNSServer unit :=
  f ← io_get;
  let m := Dns.with_Authoritative (Dns.SetReply Dns.new_Msg r) true in
  let '(m, f') := foldl (λ st q, answer_question q st) (m, f) (Dns.Questions r) in
  io_put f' ;;
  WriteMsg m.

(** A run of [getFakeIP] calls. *)
Definition calls (domains : list string) (f : FakeDNSServer) : FakeDNSServer :=
  foldl (λ f d, (getFakeIP f d).2) f domains.

(** ** dns.go *)

Record TorConfig : Type := mkTorConfig { DNSPort : Z }.

Record dnsCacheEntry : Type := mkEntry {
  response : Dns.Msg;
  timestamp : Z
}.

Record dnsCache : Type := mkCache {
  entries : gmap string dnsCacheEntry;
  maxAge : Z
}.

Record DNSResolver : Type := mkResolver {
  torCfg : TorConfig;
  bypassCfg : option Bypass.BypassConfig;
  torUpstream : string;
  fallback : string;
  r_running : bool
}.

Definition second : Z := 1000000000.
Definition minute : Z := 60 * second.

(** [NewDNSResolver]: the resolver and its (empty) cache. *)
Definition NewDNSResolver (tc : TorConfig) (bc : option Bypass.BypassConfig)
  : DNSResolver * dnsCache :=
  (mkResolver tc bc ("127.0.0.1:" +:+ pretty (DNSPort tc)) "9.9.9.9:53" false,
   mkCache ∅ (5 * minute)).

Definition matchDomain (pattern domain : string) : bool :=
  if HasPrefix pattern "*." then
    let suffix := slice_from 1 pattern in
    HasSuffix domain suffix || bool_decide (domain = slice_from 2 pattern)
  else bool_decide (pattern = domain).

Definition shouldBypass (r : DNSResolver) (domain : string) : bool :=
  match bypassCfg r with
  | None => false
  | Some bc =>
      if negb (Bypass.Enabled bc) then false
      else existsb (λ pattern, matchDomain pattern domain) (Bypass.Domains bc)
  end.

Definition cache_key (domain : string) (qtype : Z) : string :=
  domain +:+ ":" +:+ pretty qtype.

(** [dnsCache.get] *)
Definition cache_get (domain : string) (qtype : Z) : io dnsCache (option Dns.Msg) :=
  c ← io_get;
  match entries c !! cache_key domain qtype with
  | None => mret None
  | Some entry =>
      now ← io_now;
      if maxAge c <? now - timestamp entry then mret None
      else mret (Some (response entry))
  end.

(** [dnsCache.set] *)
Definition cache_set (domain : string) (qtype : Z) (msg : Dns.Msg) : io dnsCache unit :=
  c ← io_get;
  now ← io_now;
  io_put (mkCache (<[cache_key domain qtype := mkEntry msg now]> (entries c)) (maxAge c)).

Definition resolveTor (r : DNSResolver) (req : Dns.Msg) (domain : string)
  : io dnsCache unit :=
  res ← Exchange req (torUpstream r);
  match res with
  | None =>
      WriteMsg (Dns.SetRcode Dns.new_Msg req Dns.RcodeServerFailure)
  | Some resp =>
      (if bool_decide (Dns.Rcode resp = Dns.RcodeSuccess) then
         match Dns.Questions req with
         | q :: _ => cache_set domain (Dns.Qtype q) resp
         | [] => io_panic "index out of range [0] with length 0"
         end
       else mret tt) ;;
      WriteMsg resp
  end.

Definition resolveBypass (r : DNSResolver) (req : Dns.Msg) (domain : string)
  : io dnsCache unit :=
  res ← Exchange req "127.0.0.53:53";
  match res with
  | Some resp => WriteMsg resp
  | None =>
      res ← Exchange req "127.0.0.1:53";
      match res with
      | Some resp => WriteMsg resp
      | None => WriteMsg (Dns.SetRcode Dns.new_Msg req Dns.RcodeNameError)
      end
  end.

(** [DNSResolver.handleDNS] *)
Definition handleDNS (r : DNSResolver) (req : Dns.Msg) : io dnsCache unit :=
  match Dns.Questions req with
  | [] => HandleFailed req
  | question :: _ =>
      let domain := TrimSuffix (Dns.q_Name question) "." in
      if shouldBypass r domain then resolveBypass r req domain
      else
        cached ← cache_get domain (Dns.Qtype question);
        match cached with
        | Some cached => WriteMsg (Dns.with_Id cached (Dns.Id req))
        | None => resolveTor r req domain
        end
  end.

(** Running a handler on an empty trace. *)
Definition run {S A} (c : io S A) (w : World) (s : S) : outcome A * S * list event :=
  c w s [].

(** ** The remaining operations of the two servers *)

(** [IsFakeIP] *)
Definition IsFakeIP (f : FakeDNSServer) (ip : IP) : bool :=
  GoNet.Contains (fakeSubnet f) ip.

Definition with_fd_running (f : FakeDNSServer) (b : bool) : FakeDNSServer :=
  mkFakeDNSServer b (listenAddr f) (fakeSubnet f) (mappings f) (reverseMaps f)
    (nextIP f) (ttl f).

(** [FakeDNSServer.Start] and [Stop], as far as the [running] flag goes
    (the listener itself runs beside the caller): the error and the
    server afterwards. *)
Definition FakeDNS_Start (f : FakeDNSServer) : option string * FakeDNSServer :=
  if fd_running f then (Some "FakeDNS already running", f)
  else (None, with_fd_running f true).

Definition FakeDNS_Stop (f : FakeDNSServer) : option string * FakeDNSServer :=
  if negb (fd_running f) then (None, f)
  else (None, with_fd_running f false).

Definition with_r_running (r : DNSResolver) (b : bool) : DNSResolver :=
  mkResolver (torCfg r) (bypassCfg r) (torUpstream r) (fallback r) b.

(** [DNSResolver.Start] and [Stop], likewise. *)
Definition Start (r : DNSResolver) (listenPort : Z) : option string * DNSResolver :=
  if r_running r then (Some "DNS resolver already running", r)
  else (None, with_r_running r true).

Definition Stop (r : DNSResolver) : option string * DNSResolver :=
  if negb (r_running r) then (None, r)
  else (None, with_r_running r false).

(** ** LeakCheck *)

Record LeakTest : Type := mkLeakTest {
  lt_Name : string;
  lt_Passed : bool;
  lt_Details : string;
  lt_Error : string
}.

Record LeakCheckResult : Type := mkLeakCheckResult {
  lc_Timestamp : Z;
  lc_Passed : bool;
  lc_Tests : list LeakTest
}.

(** [msg.SetQuestion(z, t)] with [id] the fresh [dns.Id()]. *)
Definition SetQuestion (m : Dns.Msg) (id : Z) (z : string) (t : Z) : Dns.Msg :=
  Dns.mkMsg id (Dns.Response m) (Dns.Opcode m) (Dns.Authoritative m)
    (Dns.Truncated m) true (Dns.RecursionAvailable m) (Dns.Zero m)
    (Dns.AuthenticatedData m) (Dns.CheckingDisabled m) (Dns.Rcode m)
    [Dns.mkQuestion z t Dns.ClassINET] (Dns.Answer m) (Dns.Ns m) (Dns.Extra m).

(** The closing loop: the overall flag falls at the first failed test. *)
Fixpoint overall_pass (tests : list LeakTest) : bool :=
  match tests with
  | [] => true
  | t :: rest => if negb (lt_Passed t) then false else overall_pass rest
  end.

Section LeakCheck.
(** What the check sees of the outside: the answer to its DNS probe (a
    response, or the text of the error), the outcome of dialling
    ([None]: connected, [Some]: the error), the clock, a fresh message
    identifier, and the table [dns.RcodeToString]. *)
Variable probe : string → Dns.Msg → Dns.Msg + string.
Variable dial : string → string → option string.
Variable time_Now : Z.
Variable dns_Id : Z.
Variable RcodeToString : Z → string.

Definition LeakCheck (torDNSPort : Z) : LeakCheckResult * option string :=
  let msg := SetQuestion Dns.new_Msg dns_Id "check.torproject.org." Dns.TypeA in
  let tests1 :=
    match probe ("127.0.0.1:" +:+ pretty torDNSPort) msg with
    | inr err => [mkLeakTest "DNS through Tor" false "" err]
    | inl resp =>
        [mkLeakTest "DNS through Tor"
           (bool_decide (Dns.Rcode resp = Dns.RcodeSuccess))
           ("Response code: " +:+ RcodeToString (Dns.Rcode resp)) ""]
    end in
  let tests2 :=
    match dial "udp" "8.8.8.8:53" with
    | None =>
        tests1 ++ [mkLeakTest "Direct DNS blocked" false
                     "Direct connection to 8.8.8.8:53 succeeded (potential leak)" ""]
    | Some _ => tests1 ++ [mkLeakTest "Direct DNS blocked" true "" ""]
    end in
  (mkLeakCheckResult time_Now (overall_pass tests2) tests2, None).
End LeakCheck.

(** ** Notions used to state the allocator's properties *)

(** A four-byte address with every byte in range. *)
Definition valid_ip4 (ip : IP) : Prop :=
  length ip = 4%nat ∧ Forall (λ b, 0 ≤ b < 256) ip.

(** The address read as a big-endian number. *)
Definition ip_to_Z (ip : IP) : Z := foldl (λ acc b, acc * 256 + b) 0 ip.

(** A server as [NewFakeDNSServer] returns it for an IPv4 block. *)
Definition constructed (f : FakeDNSServer) : Prop :=
  ∃ ParseCIDR cfg,
    NewFakeDNSServer ParseCIDR cfg = Some f ∧ valid_ip4 (net_IP (fakeSubnet f)).


(** The names [0.], [1.], [2.], ... *)
Definition numbered_domain (i : Z) : string := pretty i +:+ ".".

Definition numbered_domains (n : nat) : list string :=
  (λ i, numbered_domain (Z.of_nat i)) <$> seq 0 n.

(** The number of addresses a four-byte cursor runs through. *)
Definition address_space : Z := 2 ^ 32.

(** Every character of a text satisfies a test. *)
Fixpoint string_forall (P : ascii → bool) (s : string) : bool :=
  match s with
  | EmptyString => true
  | String c rest => P c && string_forall P rest
  end.

Definition is_digit (c : ascii) : bool :=
  let n := N_of_ascii c in ((48 <=? n) && (n <=? 57))%N.

Definition not_dot (c : ascii) : bool := negb (Ascii.eqb c "."%char).

(** The character is not the given one. *)
Definition char_is_not (x c : ascii) : bool := negb (Ascii.eqb c x).

Definition digit_or_dash (c : ascii) : bool :=
  is_digit c || Ascii.eqb c "-"%char.

(** Labels joined by dots, and the reverse-lookup name of a four-byte
    address ([1.0.18.198.in-addr.arpa.] for [198.18.0.1]). *)
Fixpoint join_dots (labels : list string) : string :=
  match labels with
  | [] => ""
  | [l] => l
  | l :: rest => l +:+ "." +:+ join_dots rest
  end.

Definition reverse_name (ip : IP) : string :=
  join_dots (pretty <$> rev ip) +:+ ".in-addr.arpa.".

(** The value of an address of any length, and the bytes in range. *)
Definition valid_bytes (ip : IP) : Prop := Forall (λ b, 0 ≤ b < 256) ip.

(** A label: not empty and without a dot. *)
Definition good_label (l : string) : Prop :=
  l ≠ "" ∧ string_forall not_dot l = true.

(** Two messages agree on the header fields a reply takes from its
    query. *)
Definition same_header (m m' : Dns.Msg) : Prop :=
  Dns.Id m' = Dns.Id m ∧ Dns.Response m' = Dns.Response m
  ∧ Dns.Authoritative m' = Dns.Authoritative m ∧ Dns.Rcode m' = Dns.Rcode m
  ∧ Dns.Questions m' = Dns.Questions m.

(** Invariants of the allocator.  The first holds in every state the
    server can reach; the second says that addresses have been handed out
    in cursor order starting from [start], which holds until the cursor
    has run through the whole address space. *)
Definition allocator_sound (f : FakeDNSServer) : Prop :=
  valid_ip4 (nextIP f)
  ∧ (∀ d ip, mappings f !! d = Some ip → valid_ip4 ip)
  ∧ (∀ k d, reverseMaps f !! k = Some d →
       ∃ ip, k = IP_String ip ∧ mappings f !! d = Some ip).

Definition allocator_in_order (start : Z) (f : FakeDNSServer) : Prop :=
  (∀ d ip, mappings f !! d = Some ip →
     (ip_to_Z ip - start) mod address_space < Z.of_nat (size (mappings f)))
  ∧ (ip_to_Z (nextIP f) - start) mod address_space
    = Z.of_nat (size (mappings f)) mod address_space
  ∧ (∀ d ip, mappings f !! d = Some ip →
       reverseMaps f !! IP_String ip = Some d).

End Netfilter.

(* ===================================================================== *)
(** * Concrete configurations used in examples                            *)
(* ===================================================================== *)

Module Examples.

(** The engine of [TestEngineMatchDomain]: no address blocks, no
    geolocation database on disk. *)
Definition no_cidr : string → option IPNet := λ _, None.
Definition no_database : string → option Bypass.Reader := λ _, None.

Definition domain_config : Bypass.BypassConfig :=
  Bypass.mkBypassConfig true ["*.local"; "*.htb"; "example.com"] [] [] [] []
    (Bypass.mkGeoIPConfig false "" []).

Definition domain_engine : Bypass.Engine :=
  Bypass.NewEngine no_cidr no_database domain_config.

(** The allocator of the tests: block [198.18.0.0/15]. *)
Definition parse_cidr (s : string) : option IPNet :=
  if bool_decide (s = "198.18.0.0/15")
  then Some (mkIPNet [198; 18; 0; 0] [255; 254; 0; 0])
  else None.

Definition fake_config : Netfilter.FakeDNSConfig :=
  Netfilter.mkFakeDNSConfig "127.0.0.1:15353" "198.18.0.0/15" 60.

Definition fake_server : Netfilter.FakeDNSServer :=
  Netfilter.mkFakeDNSServer false "127.0.0.1:15353"
    (mkIPNet [198; 18; 0; 0] [255; 254; 0; 0]) ∅ ∅ [198; 18; 0; 1] 60.

(** A resolver whose bypass list holds [*.local], with the anonymizer's
    DNS port at its default and at 53. *)
Definition local_bypass : Bypass.BypassConfig :=
  Bypass.mkBypassConfig true ["*.local"] [] [] [] []
    (Bypass.mkGeoIPConfig false "" []).

Definition resolver_default : Netfilter.DNSResolver * Netfilter.dnsCache :=
  Netfilter.NewDNSResolver (Netfilter.mkTorConfig 5353) (Some local_bypass).

Definition resolver_port_53 : Netfilter.DNSResolver * Netfilter.dnsCache :=
  Netfilter.NewDNSResolver (Netfilter.mkTorConfig 53) (Some local_bypass).

(** A query with one question, and a message without any. *)
Definition query (name : string) (qtype : Z) : Dns.Msg :=
  Dns.mkMsg 7 false Dns.OpcodeQuery false false true false false false false
    Dns.RcodeSuccess [Dns.mkQuestion name qtype Dns.ClassINET] [] [] [].


(** A world in which no upstream server answers. *)
Definition dead_network : Netfilter.World :=
  Netfilter.mkWorld (λ _ _ _, None) (λ _, 0).

(** An answer to [query name Dns.TypeA], a world in which only the
    anonymizer's DNS port answers (with a given message, at a given
    time), and one in which only the system resolver does. *)
Definition answer (name : string) (rcode : Z) : Dns.Msg :=
  Dns.mkMsg 7 true Dns.OpcodeQuery false false true true false false false rcode
    [Dns.mkQuestion name Dns.TypeA Dns.ClassINET]
    [Dns.RR_A (Dns.mkHeader name Dns.TypeA Dns.ClassINET 300) [93; 184; 216; 34]]
    [] [].

Definition tor_answers (resp : Dns.Msg) (now : Z) : Netfilter.World :=
  Netfilter.mkWorld
    (λ _ server _, if bool_decide (server = "127.0.0.1:5353") then Some resp else None)
    (λ _, now).

Definition system_answers (resp : Dns.Msg) : Netfilter.World :=
  Netfilter.mkWorld
    (λ _ server _, if bool_decide (server = "127.0.0.53:53") then Some resp else None)
    (λ _, 0).

End Examples.

(* ===================================================================== *)
(** * Properties                                                          *)
(* ===================================================================== *)

Ltac ascii_cases c := destruct c as [[] [] [] [] [] [] [] []].

(** ** Strings *)

Lemma string_app_nil_r (s : string) : s +:+ "" = s.
Proof. induction s as [|c s IH]; [done|]. unfold String.app in *. simpl. by rewrite IH. Qed.

Lemma string_app_assoc (a b c : string) : (a +:+ b) +:+ c = a +:+ (b +:+ c).
Proof.
  unfold String.app. induction a as [|x a IH]; simpl; [done|]. by rewrite IH.
Qed.

Lemma string_app_cons (x : ascii) (a b : string) :
  String x a +:+ b = String x (a +:+ b).
Proof. done. Qed.

Lemma string_app_empty_l (b : string) : "" +:+ b = b.
Proof. done. Qed.

Lemma string_length_app (a b : string) :
  String.length (a +:+ b) = (String.length a + String.length b)%nat.
Proof.
  unfold String.app. induction a as [|x a IH]; simpl; [done|]. by rewrite IH.
Qed.

(** ** The glob compiler always lands in the regexp fragment *)

Section GlobCompile.
Import Bypass.

Lemma glob_piece_head (c : ascii) :
  ∃ h t, glob_piece c = String h t ∧ h ≠ "*"%char
         ∧ (h = "$"%char → t ≠ "").
Proof. ascii_cases c; simpl; eexists _, _; (split; [reflexivity|]); done. Qed.

Lemma glob_tail_head (p : string) :
  ∃ h t, glob_body p +:+ "$" = String h t ∧ h ≠ "*"%char.
Proof.
  destruct p as [|c p]; simpl.
  - by eexists _, _.
  - destruct (glob_piece_head c) as (h & t & -> & Hh & _).
    rewrite !string_app_cons. by eexists _, _.
Qed.

Lemma parse_dot (rest : string) (h : ascii) (t : string) :
  rest = String h t → h ≠ "*"%char →
  Regexp.parse_items (String "." rest)
  = cons Regexp.AnyNotNL <$> Regexp.parse_items rest.
Proof. intros -> Hh. ascii_cases h; try done. Qed.

Lemma parse_glob_piece (c : ascii) (p : string) :
  Regexp.parse_items (glob_piece c +:+ (glob_body p +:+ "$"))
  = cons (glob_node c) <$> Regexp.parse_items (glob_body p +:+ "$").
Proof.
  destruct (glob_tail_head p) as (h & t & Hrest & Hh).
  set (rest := glob_body p +:+ "$") in *. clearbody rest. subst rest.
  ascii_cases c; try reflexivity;
    ascii_cases h; try done.
Qed.

Lemma parse_glob_body (p : string) :
  Regexp.parse_items (glob_body p +:+ "$") = Some (glob_nodes p).
Proof.
  induction p as [|c p IH]; [done|].
  simpl glob_body. rewrite string_app_assoc, parse_glob_piece, IH. done.
Qed.

Lemma compileGlobToRegex_ok (p : string) :
  compileGlobToRegex p = Some (Regexp.mk (glob_regex_source p) (glob_nodes p)).
Proof.
  unfold compileGlobToRegex, glob_regex_source.
  rewrite string_app_cons, string_app_empty_l. simpl.
  by rewrite parse_glob_body.
Qed.

End GlobCompile.

(** ** The compiled matcher against the meaning of glob patterns *)

Section GlobSemantics.
Import Bypass.

Lemma match_star_unfold (p : list Regexp.node) (s : string) :
  Regexp.match_nodes (Regexp.StarAnyNotNL :: p) s
  = Regexp.match_nodes p s
    || match s with
       | String c s' =>
           Regexp.not_newline c && Regexp.match_nodes (Regexp.StarAnyNotNL :: p) s'
       | EmptyString => false
       end.
Proof. by destruct s. Qed.


Lemma glob_node_literal (c : ascii) :
  c ≠ "*"%char → c ≠ "?"%char → glob_node c = Regexp.Lit c.
Proof. intros H1 H2. ascii_cases c; done. Qed.



Lemma match_nodes_lit (c : ascii) (p : list Regexp.node) (s : string) :
  Regexp.match_nodes (Regexp.Lit c :: p) s = true →
  ∃ s', s = String c s' ∧ Regexp.match_nodes p s' = true.
Proof.
  destruct s as [|x s]; [done|]. cbn [Regexp.match_nodes].
  intros [Hc H]%andb_true_iff. apply Ascii.eqb_eq in Hc as <-. eauto.
Qed.

Lemma glob_accepts_nodes (p s : string) :
  glob_accepts p s = Regexp.match_nodes (glob_nodes p) s.
Proof. unfold glob_accepts. by rewrite compileGlobToRegex_ok. Qed.


(** A match needs a dot in the text for every literal dot of the
    pattern. *)
Lemma match_nodes_dots (p : list Regexp.node) (s : string) :
  Regexp.match_nodes p s = true → (count_literal_dots p ≤ count_dots s)%nat.
Proof.
  revert s. induction p as [|n p IH]; intros s H; [simpl; lia|].
  destruct n as [c| |].
  - destruct s as [|x s]; [done|]. simpl in H.
    apply andb_true_iff in H as [Hc H]. apply Ascii.eqb_eq in Hc as <-.
    apply IH in H. simpl. lia.
  - destruct s as [|x s]; [done|]. simpl in H.
    apply andb_true_iff in H as [_ H]. apply IH in H. simpl.
    destruct (Ascii.eqb x "."); lia.
  - induction s as [|x s IHs].
    + rewrite match_star_unfold, orb_false_r in H. apply IH in H. by simpl in *.
    + rewrite match_star_unfold in H. apply orb_true_iff in H as [H|H].
      * apply IH in H. by simpl in *.
      * apply andb_true_iff in H as [_ H]. apply IHs in H.
        simpl in *. destruct (Ascii.eqb x "."); lia.
Qed.

Lemma count_literal_dots_glob (p : string) :
  count_literal_dots (glob_nodes p) = count_dots p.
Proof.
  induction p as [|c p IH]; [done|]. simpl. rewrite <- IH.
  ascii_cases c; reflexivity.
Qed.

End GlobSemantics.

(** ** Slices, prefixes and suffixes *)

Section Slices.
Import GoStrings.

Lemma slice_from_app (a b : string) : slice_from (len a) (a +:+ b) = b.
Proof. induction a as [|x a IH]; [done|]. exact IH. Qed.

Lemma slice_to_app (a b : string) : slice_to (len a) (a +:+ b) = a.
Proof.
  induction a as [|x a IH]; [by destruct b|].
  rewrite string_app_cons. simpl. by rewrite IH.
Qed.

Lemma HasSuffix_app (a b : string) : HasSuffix (a +:+ b) b = true.
Proof.
  unfold HasSuffix, len. rewrite string_length_app.
  replace (String.length a + String.length b - String.length b)%nat
    with (len a) by (unfold len; lia).
  rewrite slice_from_app.
  apply andb_true_iff; split; apply bool_decide_eq_true; [lia | done].
Qed.

Lemma HasPrefix_app (a b : string) : HasPrefix (a +:+ b) a = true.
Proof.
  unfold HasPrefix. rewrite slice_to_app.
  apply andb_true_iff; split; apply bool_decide_eq_true; [|done].
  unfold len. rewrite string_length_app. lia.
Qed.

End Slices.

(** ** C7: what the compiled glob accepts *)



(** ** C10: the resolver's suffix matcher against the compiled glob *)

(** C10: for every [X], the resolver's [matchDomain] accepts, for the
    pattern [*.X], the bare [X] and every name ending in [.X], while the
    engine's compiled glob for the same pattern rejects the bare [X]. *)
Theorem matchDomain_apex_disagrees (X : string) :
  Netfilter.matchDomain ("*." +:+ X) X = true
  ∧ (∀ pre, Netfilter.matchDomain ("*." +:+ X) (pre +:+ "." +:+ X) = true)
  ∧ Bypass.glob_accepts ("*." +:+ X) X = false.
Proof.
  assert (Hpre : GoStrings.HasPrefix ("*." +:+ X) "*." = true)
    by apply HasPrefix_app.
  unfold Netfilter.matchDomain. rewrite Hpre.
  change (GoStrings.slice_from 2 ("*." +:+ X)) with X.
  change (GoStrings.slice_from 1 ("*." +:+ X)) with ("." +:+ X).
  split; [|split].
  - rewrite bool_decide_eq_true_2 by done. apply orb_true_r.
  - intros pre. by rewrite HasSuffix_app.
  - rewrite glob_accepts_nodes.
    destruct (Regexp.match_nodes _ X) eqn:H; [|done].
    apply match_nodes_dots in H.
    change (Bypass.glob_nodes ("*." +:+ X))
      with (Regexp.StarAnyNotNL :: Regexp.Lit "." :: Bypass.glob_nodes X) in H.
    simpl in H. rewrite count_literal_dots_glob in H. lia.
Qed.

(** ** C2: the precedence of [MatchDomain] *)

Section MatchDomainFacts.
Import Bypass.


Lemma find_none {A} (f : A → bool) (l : list A) :
  Forall (λ y, f y = false) l → List.find f l = None.
Proof. induction 1 as [|y l Hy _ IH]; simpl; [done|]. by rewrite Hy. Qed.

Lemma match_patterns_find (res : list Regexp.t) (d : string) :
  match_patterns res d
  = (λ re, mkMatchResult true None ActionBypass
             ("matches pattern " +:+ Regexp.expr re))
    <$> List.find (λ re, Regexp.MatchString re d) res.
Proof.
  induction res as [|re res IH]; simpl; [done|].
  by destruct (Regexp.MatchString re d).
Qed.

Lemma match_custom_find (rules : list Rule) (d : string) :
  match_custom rules d
  = (λ r, mkMatchResult true (Some r) (Action_ r) (Description r))
    <$> List.find (domain_rule_applies d) rules.
Proof.
  induction rules as [|r rules IH]; simpl; [done|].
  unfold domain_rule_applies at 1.
  case_bool_decide; simpl; [|done].
  destruct (compiled r) as [|re|n]; try done.
  by destruct (Regexp.MatchString re d).
Qed.

(** The code and the specification's description agree. *)
Lemma MatchDomain_refines (e : Engine) (name : string) :
  MatchDomain e name = MatchDomain_spec e name.
Proof.
  unfold MatchDomain, MatchDomain_spec.
  destruct (Enabled (cfg e)); simpl; [|done].
  rewrite match_patterns_find, match_custom_find.
  destruct (List.find _ (domainPatterns e)); simpl; [done|].
  by destruct (List.find _ (customRules e)).
Qed.

Lemma compile_domains_map (ps : list string) (acc : list Regexp.t) :
  compile_domains ps acc
  = acc ++ ((λ p, Regexp.mk (glob_regex_source p) (glob_nodes p)) <$> ps).
Proof.
  revert acc. induction ps as [|p ps IH]; intros acc; simpl.
  - by rewrite app_nil_r.
  - rewrite compileGlobToRegex_ok, IH, <- app_assoc. done.
Qed.

End MatchDomainFacts.



(** ** Address arithmetic *)

Section IPArith.
Import Netfilter.

Lemma valid_ip4_inv (ip : IP) :
  valid_ip4 ip →
  ∃ a b c d, ip = [a; b; c; d]
    ∧ 0 ≤ a < 256 ∧ 0 ≤ b < 256 ∧ 0 ≤ c < 256 ∧ 0 ≤ d < 256.
Proof.
  intros [Hlen Hall].
  destruct ip as [|a [|b [|c [|d [|]]]]]; try done.
  apply Forall_cons in Hall as [Ha Hall].
  apply Forall_cons in Hall as [Hb Hall].
  apply Forall_cons in Hall as [Hc Hall].
  apply Forall_cons in Hall as [Hd _].
  by exists a, b, c, d.
Qed.

Lemma valid_ip4_intro (a b c d : Z) :
  0 ≤ a < 256 → 0 ≤ b < 256 → 0 ≤ c < 256 → 0 ≤ d < 256 →
  valid_ip4 [a; b; c; d].
Proof. intros. split; [done|]. repeat constructor; lia. Qed.

Lemma ip_to_Z_4 (a b c d : Z) :
  ip_to_Z [a; b; c; d] = a * 16777216 + b * 65536 + c * 256 + d.
Proof. unfold ip_to_Z. simpl. lia. Qed.

Lemma ip_to_Z_range (ip : IP) :
  valid_ip4 ip → 0 ≤ ip_to_Z ip < address_space.
Proof.
  intros (a & b & c & d & -> & ? & ? & ? & ?)%valid_ip4_inv.
  rewrite ip_to_Z_4. unfold address_space. lia.
Qed.


Lemma byte_succ_cases (b : Z) :
  0 ≤ b < 256 →
  (b < 255 ∧ (b + 1) mod 256 = b + 1) ∨ (b = 255 ∧ (b + 1) mod 256 = 0).
Proof.
  intros Hb. destruct (decide (b = 255)) as [->|]; [right; done|left].
  split; [lia|]. apply Z.mod_small. lia.
Qed.

Lemma incrementIP_4 (a b c d : Z) :
  incrementIP [a; b; c; d]
  = if 0 <? (d + 1) mod 256 then [a; b; c; (d + 1) mod 256]
    else if 0 <? (c + 1) mod 256 then [a; b; (c + 1) mod 256; (d + 1) mod 256]
    else if 0 <? (b + 1) mod 256
         then [a; (b + 1) mod 256; (c + 1) mod 256; (d + 1) mod 256]
    else [(a + 1) mod 256; (b + 1) mod 256; (c + 1) mod 256; (d + 1) mod 256].
Proof.
  unfold incrementIP. simpl.
  repeat (destruct (0 <? _); [reflexivity|]). reflexivity.
Qed.

Lemma incrementIP_spec (ip : IP) :
  valid_ip4 ip →
  valid_ip4 (incrementIP ip)
  ∧ ip_to_Z (incrementIP ip) = (ip_to_Z ip + 1) mod address_space.
Proof.
  intros (a & b & c & d & -> & Ha & Hb & Hc & Hd)%valid_ip4_inv.
  rewrite incrementIP_4. unfold address_space.
  destruct (byte_succ_cases d Hd) as [[? ->]|[-> ->]];
  [|destruct (byte_succ_cases c Hc) as [[? ->]|[-> ->]];
    [|destruct (byte_succ_cases b Hb) as [[? ->]|[-> ->]];
      [|destruct (byte_succ_cases a Ha) as [[? ->]|[-> ->]]]]];
  repeat match goal with
         | |- context [0 <? ?x] =>
             first [ replace (0 <? x) with true by (symmetry; apply Z.ltb_lt; lia)
                   | replace (0 <? x) with false by (symmetry; apply Z.ltb_ge; lia) ]
         end;
  (split; [apply valid_ip4_intro; lia|]);
  rewrite !ip_to_Z_4; first [rewrite Z.mod_small; lia | reflexivity].
Qed.

End IPArith.

(** ** Decimal text: address strings and numbered names *)

Section DecimalText.
Import Netfilter.

Lemma string_forall_app (P : ascii → bool) (a b : string) :
  string_forall P (a +:+ b) = string_forall P a && string_forall P b.
Proof.
  induction a as [|x a IH]; [done|].
  rewrite string_app_cons. simpl. by rewrite IH, andb_assoc.
Qed.

Lemma string_forall_impl (P Q : ascii → bool) (s : string) :
  (∀ c, P c = true → Q c = true) →
  string_forall P s = true → string_forall Q s = true.
Proof.
  intros HPQ. induction s as [|x s IH]; [done|]. simpl.
  intros [Hx Hs]%andb_true_iff. rewrite (HPQ _ Hx). by apply IH.
Qed.

Lemma pretty_N_char_digit (x : N) : is_digit (pretty_N_char x) = true.
Proof. unfold pretty_N_char. by repeat case_match. Qed.

Lemma pretty_N_go_digits (x : N) (s : string) :
  string_forall is_digit s = true →
  string_forall is_digit (pretty_N_go x s) = true.
Proof.
  revert s. induction (N.lt_wf_0 x) as [x _ IH]; intros s Hs.
  destruct (decide (x = 0)%N) as [->|Hx]; [done|].
  rewrite pretty_N_go_step by lia.
  apply IH; [apply N.div_lt; lia|].
  simpl. by rewrite pretty_N_char_digit.
Qed.

Lemma pretty_Z_digits (z : Z) :
  0 ≤ z → string_forall is_digit (pretty z) = true.
Proof.
  intros Hz. destruct z as [|p|p]; [done| |lia].
  unfold pretty, pretty_Z, pretty, pretty_positive, pretty, pretty_N.
  case_decide; [done|]. by apply pretty_N_go_digits.
Qed.

Lemma digit_not_dot (c : ascii) : is_digit c = true → not_dot c = true.
Proof. ascii_cases c; done. Qed.

Lemma pretty_Z_no_dot (z : Z) : string_forall not_dot (pretty z) = true.
Proof.
  destruct z as [|p|p]; [done|..].
  - apply (string_forall_impl is_digit); [apply digit_not_dot|].
    by apply (pretty_Z_digits (Z.pos p)).
  - change (pretty (Z.neg p)) with ("-" +:+ pretty (Z.pos p)).
    rewrite string_forall_app. simpl.
    apply (string_forall_impl is_digit); [apply digit_not_dot|].
    by apply (pretty_Z_digits (Z.pos p)).
Qed.

(** Two texts that agree up to their first dot agree before and after it. *)
Lemma split_at_dot (a a' r r' : string) :
  string_forall not_dot a = true → string_forall not_dot a' = true →
  a +:+ String "." r = a' +:+ String "." r' → a = a' ∧ r = r'.
Proof.
  revert a'. induction a as [|x a IH]; intros [|x' a'] Ha Ha' Heq.
  - by simplify_eq.
  - rewrite string_app_cons in Heq. simpl in Heq.
    injection Heq as <- _. by simpl in Ha'.
  - rewrite string_app_cons in Heq. simpl in Heq.
    injection Heq as -> _. by simpl in Ha.
  - rewrite !string_app_cons in Heq. injection Heq as -> Heq.
    simpl in Ha, Ha'.
    apply andb_true_iff in Ha as [_ Ha]. apply andb_true_iff in Ha' as [_ Ha'].
    destruct (IH a' Ha Ha' Heq) as [-> ->]. done.
Qed.

Lemma IP_String_inj (ip ip' : IP) :
  length ip = 4%nat → length ip' = 4%nat →
  IP_String ip = IP_String ip' → ip = ip'.
Proof.
  intros Hl Hl'.
  destruct ip as [|a [|b [|c [|d [|]]]]]; try done.
  destruct ip' as [|a' [|b' [|c' [|d' [|]]]]]; try done.
  unfold IP_String. intros H.
  apply split_at_dot in H as [Ha H]; [|apply pretty_Z_no_dot..].
  apply split_at_dot in H as [Hb H]; [|apply pretty_Z_no_dot..].
  apply split_at_dot in H as [Hc Hd]; [|apply pretty_Z_no_dot..].
  apply (inj pretty) in Ha, Hb, Hc, Hd. by subst.
Qed.

Lemma numbered_domain_inj (i j : Z) :
  numbered_domain i = numbered_domain j → i = j.
Proof.
  unfold numbered_domain. intros H.
  apply split_at_dot in H as [H _]; [|apply pretty_Z_no_dot..].
  by apply (inj pretty) in H.
Qed.

Lemma rev_app_app (a b acc : string) :
  String.rev_app (a +:+ b) acc = String.rev_app b (String.rev_app a acc).
Proof.
  revert acc. induction a as [|x a IH]; intros acc; [done|].
  rewrite string_app_cons. simpl. apply IH.
Qed.

Lemma rev_app_forall (P : ascii → bool) (a acc : string) :
  string_forall P a = true → string_forall P acc = true →
  string_forall P (String.rev_app a acc) = true.
Proof.
  revert acc. induction a as [|x a IH]; intros acc Ha Hacc; [done|].
  simpl in *. apply andb_true_iff in Ha as [Hx Ha].
  apply IH; [done|]. simpl. by rewrite Hx.
Qed.

Lemma digits_no_leading_backslash (s : string) :
  string_forall is_digit s = true → Dns.leading_backslashes s = 0%nat.
Proof.
  destruct s as [|c s]; [done|]. simpl.
  intros [Hc _]%andb_true_iff. ascii_cases c; done.
Qed.

Lemma ToLower_digits_dot (s : string) :
  string_forall is_digit s = true →
  GoStrings.ToLower (s +:+ ".") = s +:+ ".".
Proof.
  induction s as [|c s IH]; [done|].
  simpl. intros [Hc Hs]%andb_true_iff.
  rewrite string_app_cons. simpl. rewrite IH by done.
  f_equal. ascii_cases c; done.
Qed.

Lemma CanonicalName_numbered (i : Z) :
  0 ≤ i → Dns.CanonicalName (numbered_domain i) = numbered_domain i.
Proof.
  intros Hi. pose proof (pretty_Z_digits i Hi) as Hd.
  unfold Dns.CanonicalName, Dns.Fqdn, Dns.IsFqdn, numbered_domain.
  unfold String.rev. rewrite rev_app_app. simpl.
  rewrite digits_no_leading_backslash by (by apply rev_app_forall).
  simpl. by apply ToLower_digits_dot.
Qed.

End DecimalText.

(** ** Invariants of the allocator *)

Section Allocator.
Import Netfilter.

Lemma getFakeIP_hit (f : FakeDNSServer) (d : string) (ip : IP) :
  mappings f !! Dns.CanonicalName d = Some ip → getFakeIP f d = (ip, f).
Proof. unfold getFakeIP. by intros ->. Qed.

Lemma getFakeIP_miss (f : FakeDNSServer) (d : string) :
  mappings f !! Dns.CanonicalName d = None →
  getFakeIP f d
  = (nextIP f,
     mkFakeDNSServer (fd_running f) (listenAddr f) (fakeSubnet f)
       (<[Dns.CanonicalName d := nextIP f]> (mappings f))
       (<[IP_String (nextIP f) := Dns.CanonicalName d]> (reverseMaps f))
       (incrementIP (nextIP f)) (ttl f)).
Proof. unfold getFakeIP. by intros ->. Qed.

Lemma getFakeIP_lookup (f : FakeDNSServer) (d : string) :
  mappings (getFakeIP f d).2 !! Dns.CanonicalName d = Some (getFakeIP f d).1.
Proof.
  destruct (mappings f !! Dns.CanonicalName d) as [ip|] eqn:E.
  - by rewrite (getFakeIP_hit _ _ _ E).
  - rewrite (getFakeIP_miss _ _ E). simpl. apply lookup_insert_eq.
Qed.

Lemma getFakeIP_preserves (f : FakeDNSServer) (d k : string) (ip : IP) :
  mappings f !! k = Some ip → mappings (getFakeIP f d).2 !! k = Some ip.
Proof.
  intros Hk. destruct (mappings f !! Dns.CanonicalName d) as [ip'|] eqn:E.
  - by rewrite (getFakeIP_hit _ _ _ E).
  - rewrite (getFakeIP_miss _ _ E). simpl.
    rewrite lookup_insert_ne; [done|]. intros <-. congruence.
Qed.

Lemma calls_app (ds1 ds2 : list string) (f : FakeDNSServer) :
  calls (ds1 ++ ds2) f = calls ds2 (calls ds1 f).
Proof. unfold calls. apply foldl_app. Qed.

Lemma calls_snoc (ds : list string) (d : string) (f : FakeDNSServer) :
  calls (ds ++ [d]) f = (getFakeIP (calls ds f) d).2.
Proof. by rewrite calls_app. Qed.

Lemma calls_preserves (ds : list string) (f : FakeDNSServer) (k : string) (ip : IP) :
  mappings f !! k = Some ip → mappings (calls ds f) !! k = Some ip.
Proof.
  revert f. induction ds as [|d ds IH]; intros f Hk; [done|].
  simpl. apply IH. by apply getFakeIP_preserves.
Qed.

Lemma getFakeIP_count (f : FakeDNSServer) (d : string) :
  GetMappingCount (getFakeIP f d).2
  = match mappings f !! Dns.CanonicalName d with
    | Some _ => GetMappingCount f
    | None => S (GetMappingCount f)
    end.
Proof.
  unfold GetMappingCount.
  destruct (mappings f !! Dns.CanonicalName d) as [ip|] eqn:E.
  - by rewrite (getFakeIP_hit _ _ _ E).
  - rewrite (getFakeIP_miss _ _ E). simpl. by apply map_size_insert_None.
Qed.

Lemma getFakeIP_count_mono (f : FakeDNSServer) (d : string) :
  (GetMappingCount f ≤ GetMappingCount (getFakeIP f d).2)%nat.
Proof. rewrite getFakeIP_count. case_match; lia. Qed.

Lemma constructed_inv (f : FakeDNSServer) :
  constructed f →
  mappings f = ∅ ∧ reverseMaps f = ∅ ∧ valid_ip4 (nextIP f).
Proof.
  intros (P & c & Hnew & Hvalid). unfold NewFakeDNSServer in Hnew.
  destruct (P (cfg_FakeSubnet c)) as [subnet|]; [|done].
  injection Hnew as <-. simpl in *.
  split; [done|]. split; [done|]. by apply incrementIP_spec.
Qed.

Lemma allocator_sound_init (f : FakeDNSServer) :
  constructed f → allocator_sound f.
Proof.
  intros (Hm & Hr & Hv)%constructed_inv. split; [done|]. split.
  - intros d ip. by rewrite Hm, lookup_empty.
  - intros k d. by rewrite Hr, lookup_empty.
Qed.

Lemma allocator_sound_step (f : FakeDNSServer) (d : string) :
  allocator_sound f → allocator_sound (getFakeIP f d).2.
Proof.
  intros (Hnext & Hfwd & Hrev).
  destruct (mappings f !! Dns.CanonicalName d) as [ip|] eqn:E.
  { by rewrite (getFakeIP_hit _ _ _ E). }
  rewrite (getFakeIP_miss _ _ E). split; [|split]; simpl.
  - by apply incrementIP_spec.
  - intros d' ip'. rewrite lookup_insert. case_decide; [|by eauto].
    by intros [= <-].
  - intros k d'. rewrite lookup_insert. case_decide as Hk.
    + intros [= <-]. exists (nextIP f). by rewrite lookup_insert_eq.
    + intros (ip & -> & Hip)%Hrev. exists ip. split; [done|].
      rewrite lookup_insert_ne; [done|]. intros <-. congruence.
Qed.

Lemma allocator_sound_calls (ds : list string) (f : FakeDNSServer) :
  allocator_sound f → allocator_sound (calls ds f).
Proof.
  revert f. induction ds as [|d ds IH]; intros f Hf; [done|].
  simpl. by apply IH, allocator_sound_step.
Qed.

Lemma offset_succ (z start c : Z) :
  (z - start) mod address_space = c mod address_space →
  ((z + 1) mod address_space - start) mod address_space
  = (c + 1) mod address_space.
Proof.
  intros H. rewrite Zminus_mod_idemp_l.
  replace (z + 1 - start) with ((z - start) + 1) by lia.
  rewrite <- Zplus_mod_idemp_l, H, Zplus_mod_idemp_l. done.
Qed.

Lemma allocator_in_order_init (f : FakeDNSServer) :
  constructed f → allocator_in_order (ip_to_Z (nextIP f)) f.
Proof.
  intros (Hm & Hr & Hv)%constructed_inv. split; [|split].
  - intros d ip. by rewrite Hm, lookup_empty.
  - rewrite Hm, map_size_empty, Z.sub_diag. done.
  - intros d ip. by rewrite Hm, lookup_empty.
Qed.

Lemma allocator_in_order_step (start : Z) (f : FakeDNSServer) (d : string) :
  allocator_sound f → allocator_in_order start f →
  Z.of_nat (GetMappingCount (getFakeIP f d).2) ≤ address_space →
  allocator_in_order start (getFakeIP f d).2.
Proof.
  intros (Hnext & Hvalid & _) (Hlt & Hcur & Hrev) Hsize.
  rewrite getFakeIP_count in Hsize.
  destruct (mappings f !! Dns.CanonicalName d) as [ip|] eqn:E.
  { by rewrite (getFakeIP_hit _ _ _ E). }
  rewrite (getFakeIP_miss _ _ E). unfold GetMappingCount in Hsize.
  assert (Hoff : (ip_to_Z (nextIP f) - start) mod address_space
                 = Z.of_nat (size (mappings f))).
  { rewrite Hcur. apply Z.mod_small. lia. }
  split; [|split]; simpl; rewrite ?map_size_insert_None by done.
  - intros d' ip'. rewrite lookup_insert. case_decide.
    + intros [= <-]. lia.
    + intros H'%Hlt. lia.
  - destruct (incrementIP_spec _ Hnext) as [_ ->].
    rewrite Nat2Z.inj_succ. by apply offset_succ.
  - intros d' ip'. rewrite lookup_insert. case_decide as Hd.
    + intros [= <-]. subst d'. by rewrite lookup_insert_eq.
    + intros Hip'. rewrite lookup_insert_ne; [by apply Hrev|].
      intros Heq. apply IP_String_inj in Heq;
        [|by destruct Hnext|by destruct (Hvalid _ _ Hip')].
      subst ip'. apply Hlt in Hip'. lia.
Qed.

Lemma allocator_in_order_calls (ds : list string) (f : FakeDNSServer) :
  constructed f →
  Z.of_nat (GetMappingCount (calls ds f)) ≤ address_space →
  allocator_in_order (ip_to_Z (nextIP f)) (calls ds f).
Proof.
  intros Hf. induction ds as [|d ds IH] using rev_ind; intros Hsize.
  { by apply allocator_in_order_init. }
  rewrite calls_snoc in *.
  pose proof (getFakeIP_count_mono (calls ds f) d).
  apply allocator_in_order_step; [|apply IH; lia|done].
  by apply allocator_sound_calls, allocator_sound_init.
Qed.

End Allocator.

(** ** Running through the whole address space *)

Section Wraparound.
Import Netfilter.

Lemma numbered_domains_S (n : nat) :
  numbered_domains (S n) = numbered_domains n ++ [numbered_domain (Z.of_nat n)].
Proof. unfold numbered_domains. by rewrite seq_S, fmap_app. Qed.

Lemma numbered_keys (f0 : FakeDNSServer) (n : nat) :
  constructed f0 →
  GetMappingCount (calls (numbered_domains n) f0) = n
  ∧ (∀ k, is_Some (mappings (calls (numbered_domains n) f0) !! k) →
       ∃ i, (i < n)%nat ∧ k = numbered_domain (Z.of_nat i)).
Proof.
  intros Hf. induction n as [|n [IHc IHk]].
  - destruct (constructed_inv _ Hf) as (Hm & _). unfold GetMappingCount.
    simpl. rewrite Hm. split; [done|]. intros k. rewrite lookup_empty.
    by intros [? ?].
  - rewrite numbered_domains_S, calls_snoc.
    set (f := calls (numbered_domains n) f0) in *.
    assert (Hcanon : Dns.CanonicalName (numbered_domain (Z.of_nat n))
                     = numbered_domain (Z.of_nat n))
      by (apply CanonicalName_numbered; lia).
    assert (Hfresh : mappings f !! Dns.CanonicalName (numbered_domain (Z.of_nat n)) = None).
    { rewrite Hcanon. apply eq_None_not_Some. intros (i & Hi & Heq)%IHk.
      apply numbered_domain_inj in Heq. lia. }
    split.
    + rewrite getFakeIP_count, Hfresh. by rewrite IHc.
    + rewrite (getFakeIP_miss _ _ Hfresh). simpl. intros k.
      rewrite Hcanon, lookup_insert. case_decide as Hk.
      * intros _. exists n. split; [lia|done].
      * intros (i & Hi & ->)%IHk. exists i. split; [lia|done].
Qed.


Lemma fake_server_constructed : constructed Examples.fake_server.
Proof.
  exists Examples.parse_cidr, Examples.fake_config.
  split; [reflexivity|]. apply valid_ip4_intro; lia.
Qed.

End Wraparound.

(** ** C4: distinct names, distinct addresses *)










(** ** C6: repeated calls *)

(** C6: a later call of [getFakeIP] for a name returns the address of the
    first call and leaves the server, hence the mapping count, unchanged;
    the first call adds one to the count exactly when the canonical name
    had no address yet. *)
Theorem getFakeIP_idempotent (f : Netfilter.FakeDNSServer) (d : string)
    (between : list string) :
  let first := Netfilter.getFakeIP f d in
  let f' := Netfilter.calls between first.2 in
  Netfilter.getFakeIP f' d = (first.1, f')
  ∧ Netfilter.GetMappingCount (Netfilter.getFakeIP f' d).2
    = Netfilter.GetMappingCount f'
  ∧ Netfilter.GetMappingCount first.2
    = match Netfilter.mappings f !! Dns.CanonicalName d with
      | Some _ => Netfilter.GetMappingCount f
      | None => S (Netfilter.GetMappingCount f)
      end.
Proof.
  intros first f'.
  assert (H : Netfilter.getFakeIP f' d = (first.1, f')).
  { apply getFakeIP_hit, calls_preserves, getFakeIP_lookup. }
  split; [exact H|]. split; [by rewrite H|]. apply getFakeIP_count.
Qed.

(** ** C5: reverse lookup *)





(** ** C1, C3: failures of the resolver's upstreams *)

Section Resolver.
Import Netfilter.

Lemma bind_returns {S A B} (c : io S A) (k : A → io S B) w s tr a s' tr' :
  c w s tr = (Returns a, s', tr') → (c ≫= k) w s tr = k a w s' tr'.
Proof. unfold mbind, io_bind. by intros ->. Qed.

(** A cache lookup changes neither the cache nor the trace. *)
Lemma cache_get_pure (domain : string) (qtype : Z) w c tr :
  ∃ res, cache_get domain qtype w c tr = (Returns res, c, tr).
Proof.
  unfold cache_get, mbind, io_bind, io_get, io_now, mret, io_ret.
  destruct (entries c !! cache_key domain qtype) as [e|]; [|by eexists].
  destruct (maxAge c <? clock w tr - timestamp e); by eexists.
Qed.

Lemma resolveTor_failure (r : DNSResolver) (req : Dns.Msg) (domain : string) w c tr :
  exchange_result w tr (torUpstream r) req = None →
  resolveTor r req domain w c tr
  = (Returns tt, c,
     tr ++ [Exchanged (torUpstream r) req]
        ++ [Wrote (Dns.SetRcode Dns.new_Msg req Dns.RcodeServerFailure)]).
Proof.
  intros H. unfold resolveTor, mbind, io_bind, Exchange, WriteMsg.
  rewrite H. by rewrite <- app_assoc.
Qed.

Lemma resolveBypass_failure (r : DNSResolver) (req : Dns.Msg) (domain : string) w c tr :
  exchange_result w tr "127.0.0.53:53" req = None →
  exchange_result w (tr ++ [Exchanged "127.0.0.53:53" req]) "127.0.0.1:53" req = None →
  resolveBypass r req domain w c tr
  = (Returns tt, c,
     tr ++ [Exchanged "127.0.0.53:53" req; Exchanged "127.0.0.1:53" req;
            Wrote (Dns.SetRcode Dns.new_Msg req Dns.RcodeNameError)]).
Proof.
  intros H1 H2. unfold resolveBypass, mbind, io_bind, Exchange, WriteMsg.
  rewrite H1, H2. by rewrite <- !app_assoc.
Qed.

Lemma torUpstream_new (tc : TorConfig) bc :
  torUpstream (NewDNSResolver tc bc).1 = "127.0.0.1:" +:+ pretty (DNSPort tc).
Proof. done. Qed.

Lemma torUpstream_not_system (tc : TorConfig) bc :
  torUpstream (NewDNSResolver tc bc).1 ≠ "127.0.0.53:53".
Proof. rewrite torUpstream_new. unfold String.app. simpl. discriminate. Qed.

Lemma torUpstream_not_loopback (tc : TorConfig) bc :
  DNSPort tc ≠ 53 → torUpstream (NewDNSResolver tc bc).1 ≠ "127.0.0.1:53".
Proof.
  intros Hp. rewrite torUpstream_new.
  change "127.0.0.1:53" with ("127.0.0.1:" +:+ pretty 53).
  intros H%(inj (String.app _)). by apply (inj pretty) in H.
Qed.

End Resolver.

(** C1: when the query is neither for a bypass domain nor answered from
    the cache and the exchange with the anonymizer's DNS port fails, the
    handler replies with SERVFAIL and has sent the query nowhere but to
    the anonymizer's DNS port. *)
Theorem resolveTor_failure_replies_SERVFAIL
    (r : Netfilter.DNSResolver) (c : Netfilter.dnsCache) (w : Netfilter.World)
    (req : Dns.Msg) (q : Dns.Question) (qs : list Dns.Question) :
  Dns.Questions req = q :: qs →
  Netfilter.shouldBypass r (GoStrings.TrimSuffix (Dns.q_Name q) ".") = false →
  (Netfilter.run
     (Netfilter.cache_get (GoStrings.TrimSuffix (Dns.q_Name q) ".") (Dns.Qtype q))
     w c).1.1 = Returns None →
  Netfilter.exchange_result w [] (Netfilter.torUpstream r) req = None →
  let out := Netfilter.run (Netfilter.handleDNS r req) w c in
  out.1.1 = Returns tt
  ∧ out.1.2 = c
  ∧ Netfilter.queried_servers out.2 = [Netfilter.torUpstream r]
  ∧ ∃ reply, Netfilter.replies out.2 = [reply]
             ∧ Dns.Rcode reply = Dns.RcodeServerFailure
             ∧ Dns.Response reply = true
             ∧ Dns.Id reply = Dns.Id req.
Proof.
  intros Hq Hbypass Hmiss Hfail out. subst out.
  unfold Netfilter.run, Netfilter.handleDNS in *. rewrite Hq, Hbypass.
  destruct (cache_get_pure (GoStrings.TrimSuffix (Dns.q_Name q) ".")
              (Dns.Qtype q) w c []) as [res Hres].
  rewrite Hres in Hmiss. injection Hmiss as ->.
  rewrite (bind_returns _ _ _ _ _ _ _ _ Hres).
  rewrite (resolveTor_failure _ _ _ _ _ _ Hfail). simpl.
  repeat split. by eexists.
Qed.

Lemma resolveTor_failure_replies_SERVFAIL_witness :
  Netfilter.queried_servers
    (Netfilter.run
       (Netfilter.handleDNS Examples.resolver_default.1
          (Examples.query "example.com." Dns.TypeA))
       Examples.dead_network Examples.resolver_default.2).2
  = ["127.0.0.1:5353"]
  ∧ Dns.Rcode <$> Netfilter.replies
      (Netfilter.run
         (Netfilter.handleDNS Examples.resolver_default.1
            (Examples.query "example.com." Dns.TypeA))
         Examples.dead_network Examples.resolver_default.2).2
    = [Dns.RcodeServerFailure].
Proof.
  destruct (resolveTor_failure_replies_SERVFAIL
              Examples.resolver_default.1 Examples.resolver_default.2
              Examples.dead_network (Examples.query "example.com." Dns.TypeA)
              (Dns.mkQuestion "example.com." Dns.TypeA Dns.ClassINET) []
              eq_refl eq_refl eq_refl eq_refl)
    as (_ & _ & Hservers & reply & Hreplies & Hrcode & _).
  split; [exact Hservers|]. rewrite Hreplies. simpl. by rewrite Hrcode.
Defined.

(** C3, as stated, fails when the anonymizer's DNS port is 53: the retry
    against the loopback resolver [127.0.0.1:53] is then a query to the
    anonymizer's resolver. *)
Lemma bypass_retry_reaches_anonymizer_on_port_53 :
  let r := Examples.resolver_port_53.1 in
  let out := Netfilter.run
               (Netfilter.handleDNS r (Examples.query "printer.local." Dns.TypeA))
               Examples.dead_network Examples.resolver_port_53.2 in
  Netfilter.shouldBypass r "printer.local" = true
  ∧ Netfilter.queried_servers out.2 = ["127.0.0.53:53"; Netfilter.torUpstream r].
Proof. split; reflexivity. Qed.

(** C3 (amended): when the query is for a bypass domain and both the
    system resolver and the loopback resolver fail, the handler replies
    with NXDOMAIN and has sent the query to those two local resolvers
    only; unless the anonymizer's DNS port is 53, that is the loopback
    resolver itself, the query has not reached the anonymizer's
    resolver. *)
Theorem resolveBypass_failure_replies_NXDOMAIN
    (tc : Netfilter.TorConfig) (bc : option Bypass.BypassConfig)
    (c : Netfilter.dnsCache) (w : Netfilter.World) (req : Dns.Msg)
    (q : Dns.Question) (qs : list Dns.Question) :
  let r := (Netfilter.NewDNSResolver tc bc).1 in
  Dns.Questions req = q :: qs →
  Netfilter.shouldBypass r (GoStrings.TrimSuffix (Dns.q_Name q) ".") = true →
  Netfilter.exchange_result w [] "127.0.0.53:53" req = None →
  Netfilter.exchange_result w [Netfilter.Exchanged "127.0.0.53:53" req]
    "127.0.0.1:53" req = None →
  let out := Netfilter.run (Netfilter.handleDNS r req) w c in
  out.1.1 = Returns tt
  ∧ out.1.2 = c
  ∧ Netfilter.queried_servers out.2 = ["127.0.0.53:53"; "127.0.0.1:53"]
  ∧ (∃ reply, Netfilter.replies out.2 = [reply]
              ∧ Dns.Rcode reply = Dns.RcodeNameError
              ∧ Dns.Response reply = true
              ∧ Dns.Id reply = Dns.Id req)
  ∧ (Netfilter.DNSPort tc ≠ 53 →
     Netfilter.torUpstream r ∉ Netfilter.queried_servers out.2).
Proof.
  intros r Hq Hbypass H1 H2 out. subst out.
  unfold Netfilter.run, Netfilter.handleDNS. rewrite Hq, Hbypass.
  rewrite (resolveBypass_failure r req _ w c [] H1 H2). simpl.
  split; [done|]. split; [done|]. split; [done|]. split; [by eexists|].
  intros Hport. rewrite !elem_of_cons, elem_of_nil.
  intros [H|[H|[]]].
  - by apply (torUpstream_not_system tc bc).
  - by apply (torUpstream_not_loopback tc bc).
Qed.

Lemma resolveBypass_failure_replies_NXDOMAIN_witness :
  Netfilter.queried_servers
    (Netfilter.run
       (Netfilter.handleDNS Examples.resolver_default.1
          (Examples.query "printer.local." Dns.TypeA))
       Examples.dead_network Examples.resolver_default.2).2
  = ["127.0.0.53:53"; "127.0.0.1:53"]
  ∧ "127.0.0.1:5353" ∉ Netfilter.queried_servers
      (Netfilter.run
         (Netfilter.handleDNS Examples.resolver_default.1
            (Examples.query "printer.local." Dns.TypeA))
         Examples.dead_network Examples.resolver_default.2).2.
Proof.
  destruct (resolveBypass_failure_replies_NXDOMAIN
              (Netfilter.mkTorConfig 5353) (Some Examples.local_bypass)
              Examples.resolver_default.2 Examples.dead_network (Examples.query "printer.local." Dns.TypeA)
              (Dns.mkQuestion "printer.local." Dns.TypeA Dns.ClassINET) []
              eq_refl eq_refl eq_refl eq_refl)
    as (_ & _ & Hservers & _ & Hnot).
  split; [exact Hservers|]. apply Hnot. discriminate.
Defined.

(** ** C8: the country matcher without a database *)

Lemma first_default_none (geoip2_Open : string → option Bypass.Reader)
    (paths : list string) (dbPath : string) :
  Forall (λ p, geoip2_Open p = None) paths →
  Bypass.first_default geoip2_Open paths dbPath = dbPath.
Proof. induction 1 as [|p paths Hp _ IH]; simpl; [done|]. by rewrite Hp. Qed.

Lemma NewGeoIPMatcher_no_database (geoip2_Open : string → option Bypass.Reader)
    (cs : list string) :
  Forall (λ p, geoip2_Open p = None) Bypass.defaultPaths →
  Bypass.NewGeoIPMatcher geoip2_Open "" cs = (None, None).
Proof.
  intros H. unfold Bypass.NewGeoIPMatcher.
  rewrite (bool_decide_eq_true_2 ("" = "") eq_refl).
  rewrite (first_default_none _ _ _ H).
  by rewrite (bool_decide_eq_true_2 ("" = "") eq_refl).
Qed.

(** C8 (what the code does): when no database path is configured and none
    of the default paths holds a database, the constructor returns the nil
    matcher without an error; on it [Match], [GetCountry] and [Close]
    return their empty results, but [AddCountry] and [RemoveCountry] panic
    with a nil dereference. *)
Theorem disabled_matcher_mutations_panic
    (geoip2_Open : string → option Bypass.Reader)
    (cs : list string) (code : string) (ip : IP) :
  Forall (λ p, geoip2_Open p = None) Bypass.defaultPaths →
  let g := (Bypass.NewGeoIPMatcher geoip2_Open "" cs).1 in
  g = None
  ∧ Bypass.Match g ip = Returns ("", false)
  ∧ Bypass.GetCountry g ip = Returns ""
  ∧ Bypass.Close g = Returns None
  ∧ Bypass.AddCountry g code = Panics Bypass.nil_deref
  ∧ Bypass.RemoveCountry g code = Panics Bypass.nil_deref.
Proof. intros H. rewrite (NewGeoIPMatcher_no_database _ _ H). by repeat split. Qed.

Lemma disabled_matcher_mutations_panic_witness :
  Bypass.AddCountry (Bypass.NewGeoIPMatcher Examples.no_database "" ["US"]).1 "DE"
  = Panics Bypass.nil_deref.
Proof.
  apply (disabled_matcher_mutations_panic Examples.no_database ["US"] "DE" [8; 8; 8; 8]).
  repeat constructor.
Defined.

(** ** C9: messages without a question *)

Section QuestionLess.
Import Netfilter.


Lemma handleDNS_no_question (r : DNSResolver) (req : Dns.Msg) w c tr :
  Dns.Questions req = [] →
  handleDNS r req w c tr
  = (Returns tt, c,
     tr ++ [Wrote (Dns.SetRcode Dns.new_Msg req Dns.RcodeServerFailure)]).
Proof. intros H. unfold handleDNS. by rewrite H. Qed.

End QuestionLess.



(** ** The repository's own test tables, replayed on the model *)

Section RepositoryTests.
Import Netfilter.

Example test_compile_glob :
  Bypass.glob_accepts "test.*" "test.com" = true
  ∧ Bypass.glob_accepts "test.*" "test.anything" = true
  ∧ Bypass.glob_accepts "test.?" "test.a" = true
  ∧ Bypass.glob_accepts "test.?" "test.ab" = false
  ∧ Bypass.glob_accepts "exact.com" "notexact.com" = false.
Proof. by repeat split. Qed.

Example test_engine_match_domain :
  Bypass.Matched <$> (Bypass.MatchDomain Examples.domain_engine <$>
    ["test.local"; "sub.test.local"; "local"; "box.htb"; "hack.the.box.htb";
     "example.com"; "sub.example.com"; "google.com"; "notlocal.com"])
  = [true; true; false; true; true; true; false; false; false].
Proof. reflexivity. Qed.

Example test_increment_ip :
  incrementIP [198; 18; 0; 0] = [198; 18; 0; 1]
  ∧ incrementIP [198; 18; 0; 255] = [198; 18; 1; 0]
  ∧ incrementIP [198; 18; 255; 255] = [198; 19; 0; 0]
  ∧ incrementIP [255; 255; 255; 255] = [0; 0; 0; 0].
Proof. by repeat split. Qed.

Example test_ptr_to_ip :
  ptrToIP <$> ["1.0.18.198.in-addr.arpa."; "255.255.19.198.in-addr.arpa.";
               "invalid"; ""; "short.arpa."]
  = ["198.18.0.1"; "198.19.255.255"; ""; ""; ""].
Proof. reflexivity. Qed.

Example test_new_fake_dns_server :
  NewFakeDNSServer Examples.parse_cidr Examples.fake_config
  = Some Examples.fake_server
  ∧ NewFakeDNSServer Examples.parse_cidr
      (mkFakeDNSConfig "127.0.0.1:15353" "invalid-subnet" 60) = None.
Proof. by split. Qed.

Example test_get_fake_ip :
  let first := getFakeIP Examples.fake_server "example.com." in
  let second := getFakeIP first.2 "google.com." in
  IP_String first.1 = "198.18.0.1"
  ∧ IP_String second.1 = "198.18.0.2"
  ∧ GetDomainForIP second.2 second.1 = "google.com."
  ∧ GetMappingCount second.2 = 2%nat.
Proof. by repeat split. Qed.

Example test_match_domain_resolver :
  matchDomain "*.local" "printer.local" = true
  ∧ matchDomain "*.local" "local" = true
  ∧ matchDomain "*.local" "notlocal.com" = false
  ∧ matchDomain "example.com" "example.com" = true
  ∧ matchDomain "example.com" "sub.example.com" = false.
Proof. by repeat split. Qed.

End RepositoryTests.

(** * Further properties of the code *)

(** ** The resolver's cache *)

Section Cache.
Import Netfilter.

Lemma pretty_Z_digit_or_dash (z : Z) :
  string_forall digit_or_dash (pretty z) = true.
Proof.
  assert (Hd : ∀ c, is_digit c = true → digit_or_dash c = true).
  { intros c Hc. unfold digit_or_dash. by rewrite Hc. }
  destruct z as [|p|p]; [done|..].
  - apply (string_forall_impl is_digit); [done|].
    by apply (pretty_Z_digits (Z.pos p)).
  - change (pretty (Z.neg p)) with ("-" +:+ pretty (Z.pos p)).
    rewrite string_forall_app. simpl.
    apply (string_forall_impl is_digit); [done|].
    by apply (pretty_Z_digits (Z.pos p)).
Qed.

Lemma pretty_Z_no_colon (z : Z) :
  string_forall (char_is_not ":") (pretty z) = true.
Proof.
  apply (string_forall_impl digit_or_dash); [|apply pretty_Z_digit_or_dash].
  intros c. ascii_cases c; done.
Qed.

(** Two texts that agree from their last separator on agree before it. *)
Lemma split_at_last (x : ascii) (d d' p p' : string) :
  string_forall (char_is_not x) p = true →
  string_forall (char_is_not x) p' = true →
  d +:+ String x p = d' +:+ String x p' → d = d' ∧ p = p'.
Proof.
  assert (Hrefl : char_is_not x x = false).
  { unfold char_is_not. by rewrite Ascii.eqb_refl. }
  revert d'. induction d as [|c d IH]; intros [|c' d'] Hp Hp' Heq.
  - by simplify_eq.
  - rewrite string_app_cons in Heq. simpl in Heq. injection Heq as <- ->.
    rewrite string_forall_app in Hp. simpl in Hp.
    rewrite Hrefl, andb_false_r in Hp. done.
  - rewrite string_app_cons in Heq. simpl in Heq. injection Heq as -> <-.
    rewrite string_forall_app in Hp'. simpl in Hp'.
    rewrite Hrefl, andb_false_r in Hp'. done.
  - rewrite !string_app_cons in Heq. injection Heq as -> Heq.
    destruct (IH d' Hp Hp' Heq) as [-> ->]. done.
Qed.

Lemma cache_key_inj (d d' : string) (t t' : Z) :
  cache_key d t = cache_key d' t' → d = d' ∧ t = t'.
Proof.
  unfold cache_key. intros H.
  apply split_at_last in H as [-> H]; [|apply pretty_Z_no_colon..].
  by apply (inj pretty) in H.
Qed.

Lemma cache_set_run (d : string) (t : Z) (msg : Dns.Msg) w c tr :
  cache_set d t msg w c tr
  = (Returns tt,
     mkCache (<[cache_key d t := mkEntry msg (clock w tr)]> (entries c)) (maxAge c),
     tr).
Proof. reflexivity. Qed.

Lemma cache_get_run (d : string) (t : Z) w c tr :
  cache_get d t w c tr
  = (Returns
       match entries c !! cache_key d t with
       | None => None
       | Some entry =>
           if maxAge c <? clock w tr - timestamp entry then None
           else Some (response entry)
       end, c, tr).
Proof.
  unfold cache_get, mbind, io_bind, io_get, io_now, mret, io_ret.
  destruct (entries c !! cache_key d t) as [e|]; [|done].
  by destruct (maxAge c <? clock w tr - timestamp e).
Qed.

End Cache.

(** X1: an entry written by [set] is served by [get] for the same domain
    and query type as long as its age does not exceed [maxAge], and is
    treated as absent once it is older. *)
Theorem cache_set_get_fresh_or_stale
    (d : string) (t : Z) (msg : Dns.Msg)
    (w w' : Netfilter.World) (c : Netfilter.dnsCache)
    (tr tr' : list Netfilter.event) :
  let c' := (Netfilter.cache_set d t msg w c tr).1.2 in
  let age := Netfilter.clock w' tr' - Netfilter.clock w tr in
  (age ≤ Netfilter.maxAge c →
     Netfilter.cache_get d t w' c' tr' = (Returns (Some msg), c', tr'))
  ∧ (Netfilter.maxAge c < age →
       Netfilter.cache_get d t w' c' tr' = (Returns None, c', tr')).
Proof.
  intros c' age. subst c'. rewrite cache_set_run. cbn [fst snd].
  rewrite cache_get_run. cbn [Netfilter.entries Netfilter.maxAge].
  rewrite lookup_insert_eq. cbn [Netfilter.timestamp Netfilter.response].
  fold age. split; intros H.
  - by rewrite (proj2 (Z.ltb_ge _ _) H).
  - by rewrite (proj2 (Z.ltb_lt _ _) H).
Qed.

(** X2: writing an entry for one (domain, query type) pair leaves the
    answer of [get] for every other pair as it was. *)
Theorem cache_set_other_key
    (d d' : string) (t t' : Z) (msg : Dns.Msg)
    (w w' : Netfilter.World) (c : Netfilter.dnsCache)
    (tr tr' : list Netfilter.event) :
  (d, t) ≠ (d', t') →
  (Netfilter.cache_get d' t' w' (Netfilter.cache_set d t msg w c tr).1.2 tr').1.1
  = (Netfilter.cache_get d' t' w' c tr').1.1.
Proof.
  intros Hne. rewrite cache_set_run, !cache_get_run. cbn.
  rewrite lookup_insert_ne; [done|].
  intros [-> ->]%cache_key_inj. done.
Qed.

Lemma cache_set_other_key_witness :
  (Netfilter.cache_get "a" 12 Examples.dead_network
     (Netfilter.cache_set "a:1" 2 (Examples.query "a:1." 2)
        Examples.dead_network Examples.resolver_default.2 []).1.2 []).1.1
  = Returns None.
Proof.
  rewrite (cache_set_other_key "a:1" "a" 2 12); [reflexivity|discriminate].
Defined.

(** ** The resolver's handler, path by path *)

Section HandlerPaths.
Import Netfilter.

Lemma resolveTor_success (r : DNSResolver) (req resp : Dns.Msg)
    (q : Dns.Question) (qs : list Dns.Question) (domain : string) w c tr :
  Dns.Questions req = q :: qs →
  exchange_result w tr (torUpstream r) req = Some resp →
  resolveTor r req domain w c tr
  = (Returns tt,
     (if bool_decide (Dns.Rcode resp = Dns.RcodeSuccess)
      then mkCache (<[cache_key domain (Dns.Qtype q)
                      := mkEntry resp (clock w (tr ++ [Exchanged (torUpstream r) req]))]>
                      (entries c)) (maxAge c)
      else c),
     tr ++ [Exchanged (torUpstream r) req; Wrote resp]).
Proof.
  intros Hq H. unfold resolveTor, mbind, io_bind, Exchange, WriteMsg.
  rewrite H, Hq. case_bool_decide.
  - rewrite cache_set_run. by rewrite <- app_assoc.
  - unfold mret, io_ret. by rewrite <- app_assoc.
Qed.

Lemma resolveBypass_system (r : DNSResolver) (req resp : Dns.Msg) (domain : string) w c tr :
  exchange_result w tr "127.0.0.53:53" req = Some resp →
  resolveBypass r req domain w c tr
  = (Returns tt, c, tr ++ [Exchanged "127.0.0.53:53" req; Wrote resp]).
Proof.
  intros H. unfold resolveBypass, mbind, io_bind, Exchange, WriteMsg.
  rewrite H. by rewrite <- app_assoc.
Qed.

Lemma resolveBypass_loopback (r : DNSResolver) (req resp : Dns.Msg) (domain : string) w c tr :
  exchange_result w tr "127.0.0.53:53" req = None →
  exchange_result w (tr ++ [Exchanged "127.0.0.53:53" req]) "127.0.0.1:53" req
  = Some resp →
  resolveBypass r req domain w c tr
  = (Returns tt, c,
     tr ++ [Exchanged "127.0.0.53:53" req; Exchanged "127.0.0.1:53" req; Wrote resp]).
Proof.
  intros H1 H2. unfold resolveBypass, mbind, io_bind, Exchange, WriteMsg.
  rewrite H1, H2. by rewrite <- !app_assoc.
Qed.

Lemma handleDNS_unfold (r : DNSResolver) (req : Dns.Msg)
    (q : Dns.Question) (qs : list Dns.Question) w c tr :
  Dns.Questions req = q :: qs →
  handleDNS r req w c tr
  = let domain := GoStrings.TrimSuffix (Dns.q_Name q) "." in
    if shouldBypass r domain then resolveBypass r req domain w c tr
    else
      match entries c !! cache_key domain (Dns.Qtype q) with
      | None => resolveTor r req domain w c tr
      | Some entry =>
          if maxAge c <? clock w tr - timestamp entry
          then resolveTor r req domain w c tr
          else (Returns tt, c, tr ++ [Wrote (Dns.with_Id (response entry) (Dns.Id req))])
      end.
Proof.
  intros Hq. unfold handleDNS. rewrite Hq. cbn zeta.
  destruct (shouldBypass r _); [done|].
  unfold mbind at 1. unfold io_bind at 1. rewrite cache_get_run.
  destruct (entries c !! _) as [e|]; [|done].
  by destruct (maxAge c <? _).
Qed.

End HandlerPaths.

Lemma cache_hit_or_stale_run
    (r : Netfilter.DNSResolver) (c : Netfilter.dnsCache) (w : Netfilter.World)
    (req : Dns.Msg) (q : Dns.Question) (qs : list Dns.Question)
    (entry : Netfilter.dnsCacheEntry) :
  let domain := GoStrings.TrimSuffix (Dns.q_Name q) "." in
  let age := Netfilter.clock w [] - Netfilter.timestamp entry in
  Dns.Questions req = q :: qs →
  Netfilter.shouldBypass r domain = false →
  Netfilter.entries c !! Netfilter.cache_key domain (Dns.Qtype q) = Some entry →
  (age ≤ Netfilter.maxAge c →
     Netfilter.run (Netfilter.handleDNS r req) w c
     = (Returns tt, c,
        [Netfilter.Wrote (Dns.with_Id (Netfilter.response entry) (Dns.Id req))]))
  ∧ (Netfilter.maxAge c < age →
       Netfilter.run (Netfilter.handleDNS r req) w c
       = Netfilter.run (Netfilter.resolveTor r req domain) w c).
Proof.
  intros domain age Hq Hb He. unfold Netfilter.run.
  rewrite (handleDNS_unfold _ _ _ _ _ _ _ Hq). cbn zeta. fold domain.
  rewrite Hb, He. fold age. split; intros H.
  - by rewrite (proj2 (Z.ltb_ge _ _) H).
  - by rewrite (proj2 (Z.ltb_lt _ _) H).
Qed.

(** X3: a query that is not for a bypass domain and finds a cache entry
    no older than [maxAge] is answered with the cached response carrying
    the identifier of the query, and nothing is sent upstream; an older
    entry counts as a miss and the query is forwarded to the anonymizer. *)
Theorem handleDNS_cache_hit_or_stale
    (r : Netfilter.DNSResolver) (c : Netfilter.dnsCache) (w : Netfilter.World)
    (req : Dns.Msg) (q : Dns.Question) (qs : list Dns.Question)
    (entry : Netfilter.dnsCacheEntry) :
  let domain := GoStrings.TrimSuffix (Dns.q_Name q) "." in
  let age := Netfilter.clock w [] - Netfilter.timestamp entry in
  Dns.Questions req = q :: qs →
  Netfilter.shouldBypass r domain = false →
  Netfilter.entries c !! Netfilter.cache_key domain (Dns.Qtype q) = Some entry →
  (age ≤ Netfilter.maxAge c →
     Netfilter.run (Netfilter.handleDNS r req) w c
     = (Returns tt, c,
        [Netfilter.Wrote (Dns.with_Id (Netfilter.response entry) (Dns.Id req))]))
  ∧ (Netfilter.maxAge c < age →
       Netfilter.run (Netfilter.handleDNS r req) w c
       = Netfilter.run (Netfilter.resolveTor r req domain) w c).
Proof. exact (cache_hit_or_stale_run r c w req q qs entry). Qed.

Lemma handleDNS_cache_hit_or_stale_witness :
  let c := (Netfilter.cache_set "example.com" Dns.TypeA
              (Examples.query "example.com." Dns.TypeA)
              Examples.dead_network Examples.resolver_default.2 []).1.2 in
  Netfilter.queried_servers
    (Netfilter.run
       (Netfilter.handleDNS Examples.resolver_default.1
          (Examples.query "example.com." Dns.TypeA))
       Examples.dead_network c).2 = [].
Proof.
  intros c.
  destruct (handleDNS_cache_hit_or_stale Examples.resolver_default.1 c
              Examples.dead_network (Examples.query "example.com." Dns.TypeA)
              (Dns.mkQuestion "example.com." Dns.TypeA Dns.ClassINET) []
              (Netfilter.mkEntry (Examples.query "example.com." Dns.TypeA) 0)
              eq_refl eq_refl eq_refl) as [Hfresh _].
  rewrite Hfresh; [reflexivity|]. vm_compute. discriminate.
Defined.

Lemma forward_success_run
    (r : Netfilter.DNSResolver) (c : Netfilter.dnsCache) (w : Netfilter.World)
    (req resp : Dns.Msg) (q : Dns.Question) (qs : list Dns.Question) :
  let domain := GoStrings.TrimSuffix (Dns.q_Name q) "." in
  Dns.Questions req = q :: qs →
  Netfilter.shouldBypass r domain = false →
  (Netfilter.run (Netfilter.cache_get domain (Dns.Qtype q)) w c).1.1 = Returns None →
  Netfilter.exchange_result w [] (Netfilter.torUpstream r) req = Some resp →
  let out := Netfilter.run (Netfilter.handleDNS r req) w c in
  out.1.1 = Returns tt
  ∧ out.2 = [Netfilter.Exchanged (Netfilter.torUpstream r) req; Netfilter.Wrote resp]
  ∧ (Dns.Rcode resp = Dns.RcodeSuccess →
       Netfilter.entries out.1.2 !! Netfilter.cache_key domain (Dns.Qtype q)
       = Some (Netfilter.mkEntry resp
                 (Netfilter.clock w [Netfilter.Exchanged (Netfilter.torUpstream r) req]))
       ∧ Netfilter.maxAge out.1.2 = Netfilter.maxAge c)
  ∧ (Dns.Rcode resp ≠ Dns.RcodeSuccess → out.1.2 = c).
Proof.
  intros domain Hq Hb Hmiss Hex out. subst out. unfold Netfilter.run in *.
  rewrite cache_get_run in Hmiss. cbn [fst] in Hmiss.
  rewrite (handleDNS_unfold _ _ _ _ _ _ _ Hq). cbn zeta. fold domain.
  rewrite Hb.
  assert (Hgo : match Netfilter.entries c !! Netfilter.cache_key domain (Dns.Qtype q) with
                | None => Netfilter.resolveTor r req domain w c []
                | Some entry =>
                    if Netfilter.maxAge c <? Netfilter.clock w [] - Netfilter.timestamp entry
                    then Netfilter.resolveTor r req domain w c []
                    else (Returns tt, c,
                          [] ++ [Netfilter.Wrote (Dns.with_Id (Netfilter.response entry) (Dns.Id req))])
                end = Netfilter.resolveTor r req domain w c []).
  { destruct (Netfilter.entries c !! _) as [e|]; [|done].
    destruct (Netfilter.maxAge c <? _); [done|]. by simplify_eq. }
  rewrite Hgo, (resolveTor_success _ _ _ _ _ _ _ _ _ Hq Hex). cbn [fst snd app].
  split; [done|]. split; [done|]. split.
  - intros Hrc. rewrite bool_decide_eq_true_2 by done. cbn.
    by rewrite lookup_insert_eq.
  - intros Hrc. by rewrite bool_decide_eq_false_2.
Qed.

(** X4: when a forwarded query is answered, the answer is passed on
    unchanged after a single exchange with the anonymizer's DNS port; it
    is stored in the cache under the trimmed domain and the query type
    exactly when its response code is success, and otherwise the cache is
    left as it was. *)
Theorem handleDNS_forward_success
    (r : Netfilter.DNSResolver) (c : Netfilter.dnsCache) (w : Netfilter.World)
    (req resp : Dns.Msg) (q : Dns.Question) (qs : list Dns.Question) :
  let domain := GoStrings.TrimSuffix (Dns.q_Name q) "." in
  Dns.Questions req = q :: qs →
  Netfilter.shouldBypass r domain = false →
  (Netfilter.run (Netfilter.cache_get domain (Dns.Qtype q)) w c).1.1 = Returns None →
  Netfilter.exchange_result w [] (Netfilter.torUpstream r) req = Some resp →
  let out := Netfilter.run (Netfilter.handleDNS r req) w c in
  out.1.1 = Returns tt
  ∧ out.2 = [Netfilter.Exchanged (Netfilter.torUpstream r) req; Netfilter.Wrote resp]
  ∧ (Dns.Rcode resp = Dns.RcodeSuccess →
       Netfilter.entries out.1.2 !! Netfilter.cache_key domain (Dns.Qtype q)
       = Some (Netfilter.mkEntry resp
                 (Netfilter.clock w [Netfilter.Exchanged (Netfilter.torUpstream r) req]))
       ∧ Netfilter.maxAge out.1.2 = Netfilter.maxAge c)
  ∧ (Dns.Rcode resp ≠ Dns.RcodeSuccess → out.1.2 = c).
Proof. exact (forward_success_run r c w req resp q qs). Qed.

Lemma handleDNS_forward_success_witness :
  let out := Netfilter.run
               (Netfilter.handleDNS Examples.resolver_default.1
                  (Examples.query "example.com." Dns.TypeA))
               (Examples.tor_answers (Examples.answer "example.com." Dns.RcodeNameError) 5)
               Examples.resolver_default.2 in
  Netfilter.replies out.2 = [Examples.answer "example.com." Dns.RcodeNameError]
  ∧ out.1.2 = Examples.resolver_default.2.
Proof.
  intros out.
  destruct (handleDNS_forward_success Examples.resolver_default.1
              Examples.resolver_default.2
              (Examples.tor_answers (Examples.answer "example.com." Dns.RcodeNameError) 5)
              (Examples.query "example.com." Dns.TypeA)
              (Examples.answer "example.com." Dns.RcodeNameError)
              (Dns.mkQuestion "example.com." Dns.TypeA Dns.ClassINET) []
              eq_refl eq_refl eq_refl eq_refl)
    as (_ & Htrace & _ & Hkeep).
  fold out in Htrace, Hkeep. split.
  - rewrite Htrace. reflexivity.
  - apply Hkeep. discriminate.
Defined.

(** X5: once a forwarded query has been answered with response code
    success, a later query for the same name (with or without the final
    dot) and the same type is answered from the cache, with its own
    identifier and without any exchange, as long as the entry is no older
    than [maxAge]. *)
Theorem handleDNS_second_query_from_cache
    (r : Netfilter.DNSResolver) (c : Netfilter.dnsCache) (w w2 : Netfilter.World)
    (req req2 resp : Dns.Msg) (q q2 : Dns.Question) (qs qs2 : list Dns.Question) :
  let domain := GoStrings.TrimSuffix (Dns.q_Name q) "." in
  Dns.Questions req = q :: qs →
  Netfilter.shouldBypass r domain = false →
  (Netfilter.run (Netfilter.cache_get domain (Dns.Qtype q)) w c).1.1 = Returns None →
  Netfilter.exchange_result w [] (Netfilter.torUpstream r) req = Some resp →
  Dns.Rcode resp = Dns.RcodeSuccess →
  Dns.Questions req2 = q2 :: qs2 →
  GoStrings.TrimSuffix (Dns.q_Name q2) "." = domain →
  Dns.Qtype q2 = Dns.Qtype q →
  Netfilter.clock w2 []
    - Netfilter.clock w [Netfilter.Exchanged (Netfilter.torUpstream r) req]
    ≤ Netfilter.maxAge c →
  let c' := (Netfilter.run (Netfilter.handleDNS r req) w c).1.2 in
  Netfilter.run (Netfilter.handleDNS r req2) w2 c'
  = (Returns tt, c', [Netfilter.Wrote (Dns.with_Id resp (Dns.Id req2))]).
Proof.
  intros domain Hq Hb Hmiss Hex Hrc Hq2 Hname Htype Hage c'.
  destruct (forward_success_run r c w req resp q qs Hq Hb Hmiss Hex)
    as (_ & _ & Hstored & _).
  destruct (Hstored Hrc) as [Hentry Hmax]. fold domain c' in Hentry, Hmax.
  rewrite <- Hname, <- Htype in Hentry. rewrite <- Hname in Hb.
  apply (cache_hit_or_stale_run r c' w2 req2 q2 qs2 _ Hq2 Hb Hentry).
  cbn [Netfilter.timestamp]. by rewrite Hmax.
Qed.

Lemma handleDNS_second_query_from_cache_witness :
  let w := Examples.tor_answers (Examples.answer "example.com." Dns.RcodeSuccess) 5 in
  let c' := (Netfilter.run
               (Netfilter.handleDNS Examples.resolver_default.1
                  (Examples.query "example.com." Dns.TypeA))
               w Examples.resolver_default.2).1.2 in
  Netfilter.run
    (Netfilter.handleDNS Examples.resolver_default.1
       (Examples.query "example.com" Dns.TypeA))
    Examples.dead_network c'
  = (Returns tt, c',
     [Netfilter.Wrote (Dns.with_Id (Examples.answer "example.com." Dns.RcodeSuccess) 7)]).
Proof.
  intros w c'.
  apply (handleDNS_second_query_from_cache Examples.resolver_default.1
           Examples.resolver_default.2 w Examples.dead_network
           (Examples.query "example.com." Dns.TypeA)
           (Examples.query "example.com" Dns.TypeA)
           (Examples.answer "example.com." Dns.RcodeSuccess)
           (Dns.mkQuestion "example.com." Dns.TypeA Dns.ClassINET)
           (Dns.mkQuestion "example.com" Dns.TypeA Dns.ClassINET) [] []);
    try reflexivity.
  vm_compute. discriminate.
Defined.

(** X6: a query for a bypass domain is answered with what the system
    resolver returns, or, when that exchange fails, with what the
    loopback resolver returns; the cache is neither consulted nor
    changed on this path, whatever it holds for the domain. *)
Theorem handleDNS_bypass_success
    (r : Netfilter.DNSResolver) (c : Netfilter.dnsCache) (w : Netfilter.World)
    (req resp : Dns.Msg) (q : Dns.Question) (qs : list Dns.Question) :
  Dns.Questions req = q :: qs →
  Netfilter.shouldBypass r (GoStrings.TrimSuffix (Dns.q_Name q) ".") = true →
  (Netfilter.exchange_result w [] "127.0.0.53:53" req = Some resp →
     Netfilter.run (Netfilter.handleDNS r req) w c
     = (Returns tt, c,
        [Netfilter.Exchanged "127.0.0.53:53" req; Netfilter.Wrote resp]))
  ∧ (Netfilter.exchange_result w [] "127.0.0.53:53" req = None →
     Netfilter.exchange_result w [Netfilter.Exchanged "127.0.0.53:53" req]
       "127.0.0.1:53" req = Some resp →
     Netfilter.run (Netfilter.handleDNS r req) w c
     = (Returns tt, c,
        [Netfilter.Exchanged "127.0.0.53:53" req;
         Netfilter.Exchanged "127.0.0.1:53" req; Netfilter.Wrote resp])).
Proof.
  intros Hq Hb. unfold Netfilter.run.
  rewrite (handleDNS_unfold _ _ _ _ _ _ _ Hq). cbn zeta. rewrite Hb. split.
  - intros H. by rewrite (resolveBypass_system _ _ _ _ _ _ _ H).
  - intros H1 H2. by rewrite (resolveBypass_loopback _ _ _ _ _ _ _ H1 H2).
Qed.

Lemma handleDNS_bypass_success_witness :
  Netfilter.run
    (Netfilter.handleDNS Examples.resolver_default.1
       (Examples.query "printer.local." Dns.TypeA))
    (Examples.system_answers (Examples.answer "printer.local." Dns.RcodeSuccess))
    Examples.resolver_default.2
  = (Returns tt, Examples.resolver_default.2,
     [Netfilter.Exchanged "127.0.0.53:53" (Examples.query "printer.local." Dns.TypeA);
      Netfilter.Wrote (Examples.answer "printer.local." Dns.RcodeSuccess)]).
Proof.
  apply (proj1 (handleDNS_bypass_success Examples.resolver_default.1
                  Examples.resolver_default.2
                  (Examples.system_answers (Examples.answer "printer.local." Dns.RcodeSuccess))
                  (Examples.query "printer.local." Dns.TypeA)
                  (Examples.answer "printer.local." Dns.RcodeSuccess)
                  (Dns.mkQuestion "printer.local." Dns.TypeA Dns.ClassINET) []
                  eq_refl eq_refl)).
  reflexivity.
Defined.

(** X7: whatever the message, the cache and the behaviour of the
    upstream servers, the resolver's handler does not panic, writes
    exactly one reply, exchanges at most twice, and only with the
    anonymizer's DNS port or the two local resolvers; the address kept in
    the [fallback] field ([9.9.9.9:53]) is never contacted. *)
Theorem handleDNS_one_reply_known_servers
    (tc : Netfilter.TorConfig) (bc : option Bypass.BypassConfig)
    (c : Netfilter.dnsCache) (w : Netfilter.World) (req : Dns.Msg) :
  let r := (Netfilter.NewDNSResolver tc bc).1 in
  let out := Netfilter.run (Netfilter.handleDNS r req) w c in
  out.1.1 = Returns tt
  ∧ length (Netfilter.replies out.2) = 1%nat
  ∧ (length (Netfilter.queried_servers out.2) ≤ 2)%nat
  ∧ Netfilter.queried_servers out.2
    ⊆ [Netfilter.torUpstream r; "127.0.0.53:53"; "127.0.0.1:53"]
  ∧ Netfilter.fallback r ∉ Netfilter.queried_servers out.2.
Proof.
  intros r out.
  assert (Hcases :
    out = (Returns tt, out.1.2, out.2)
    ∧ (∃ m, out.2 = [Netfilter.Wrote m]
       ∨ out.2 = [Netfilter.Exchanged (Netfilter.torUpstream r) req; Netfilter.Wrote m]
       ∨ out.2 = [Netfilter.Exchanged "127.0.0.53:53" req; Netfilter.Wrote m]
       ∨ out.2 = [Netfilter.Exchanged "127.0.0.53:53" req;
                  Netfilter.Exchanged "127.0.0.1:53" req; Netfilter.Wrote m])).
  { subst out. unfold Netfilter.run.
    destruct (Dns.Questions req) as [|q qs] eqn:Hq.
    { rewrite (handleDNS_no_question _ _ _ _ _ Hq). split; [done|]. eauto. }
    rewrite (handleDNS_unfold _ _ _ _ _ _ _ Hq). cbn zeta.
    set (domain := GoStrings.TrimSuffix (Dns.q_Name q) ".").
    assert (Htor : ∀ tr, tr = [] →
      Netfilter.resolveTor r req domain w c tr
      = (Returns tt, (Netfilter.resolveTor r req domain w c tr).1.2,
         (Netfilter.resolveTor r req domain w c tr).2)
      ∧ ∃ m, (Netfilter.resolveTor r req domain w c tr).2
             = [Netfilter.Exchanged (Netfilter.torUpstream r) req; Netfilter.Wrote m]).
    { intros tr ->.
      destruct (Netfilter.exchange_result w [] (Netfilter.torUpstream r) req)
        as [resp|] eqn:Hex.
      - rewrite (resolveTor_success _ _ _ _ _ _ _ _ _ Hq Hex). split; [done|]. eauto.
      - rewrite (resolveTor_failure _ _ _ _ _ _ Hex). split; [done|]. eauto. }
    destruct (Netfilter.shouldBypass r domain).
    - destruct (Netfilter.exchange_result w [] "127.0.0.53:53" req)
        as [resp|] eqn:H1.
      { rewrite (resolveBypass_system _ _ _ _ _ _ _ H1). split; [done|]. eauto. }
      destruct (Netfilter.exchange_result w [Netfilter.Exchanged "127.0.0.53:53" req]
                  "127.0.0.1:53" req) as [resp|] eqn:H2.
      { rewrite (resolveBypass_loopback _ _ _ _ _ _ _ H1 H2). split; [done|].
        eexists. do 3 right. reflexivity. }
      rewrite (resolveBypass_failure _ _ _ _ _ _ H1 H2). split; [done|].
      eexists. do 3 right. reflexivity.
    - destruct (Netfilter.entries c !! _) as [e|].
      + destruct (Netfilter.maxAge c <? _).
        * destruct (Htor [] eq_refl) as [? [m Hm]]. split; [done|]. eauto.
        * split; [done|]. eauto.
      + destruct (Htor [] eq_refl) as [? [m Hm]]. split; [done|]. eauto. }
  destruct Hcases as [Hout (m & [H|[H|[H|H]]])]; rewrite Hout, H; cbn;
    (split; [done|]); (split; [done|]); (split; [lia|]);
    (split; [intros x; rewrite !elem_of_cons; tauto|]);
    intros Hin;
    repeat (apply elem_of_cons in Hin as [Hin|Hin]);
    try (by apply elem_of_nil in Hin); try discriminate;
    unfold String.app in Hin; simpl in Hin; discriminate.
Qed.

(** X8: a resolver without a bypass configuration, or with a disabled
    one, sends nothing to the local resolvers: every query it issues goes
    to the anonymizer's DNS port. *)
Theorem handleDNS_no_bypass_config
    (r : Netfilter.DNSResolver) (c : Netfilter.dnsCache) (w : Netfilter.World)
    (req : Dns.Msg) :
  match Netfilter.bypassCfg r with
  | None => True
  | Some bc => Bypass.Enabled bc = false
  end →
  Forall (λ server, server = Netfilter.torUpstream r)
    (Netfilter.queried_servers (Netfilter.run (Netfilter.handleDNS r req) w c).2).
Proof.
  intros Hcfg. unfold Netfilter.run.
  assert (Hb : ∀ d, Netfilter.shouldBypass r d = false).
  { intros d. unfold Netfilter.shouldBypass.
    destruct (Netfilter.bypassCfg r) as [bc|]; [|done]. by rewrite Hcfg. }
  destruct (Dns.Questions req) as [|q qs] eqn:Hq.
  { rewrite (handleDNS_no_question _ _ _ _ _ Hq). constructor. }
  rewrite (handleDNS_unfold _ _ _ _ _ _ _ Hq). cbn zeta. rewrite Hb.
  assert (Htor : Forall (λ server, server = Netfilter.torUpstream r)
    (Netfilter.queried_servers
       (Netfilter.resolveTor r req (GoStrings.TrimSuffix (Dns.q_Name q) ".") w c []).2)).
  { destruct (Netfilter.exchange_result w [] (Netfilter.torUpstream r) req)
      as [resp|] eqn:Hex.
    - rewrite (resolveTor_success _ _ _ _ _ _ _ _ _ Hq Hex). by repeat constructor.
    - rewrite (resolveTor_failure _ _ _ _ _ _ Hex). by repeat constructor. }
  destruct (Netfilter.entries c !! _) as [e|]; [|done].
  destruct (Netfilter.maxAge c <? _); [done|]. constructor.
Qed.

Lemma handleDNS_no_bypass_config_witness :
  Forall (λ server, server = "127.0.0.1:5353")
    (Netfilter.queried_servers
       (Netfilter.run
          (Netfilter.handleDNS (Netfilter.NewDNSResolver (Netfilter.mkTorConfig 5353) None).1
             (Examples.query "printer.local." Dns.TypeA))
          Examples.dead_network Examples.resolver_default.2).2).
Proof.
  exact (handleDNS_no_bypass_config
           (Netfilter.NewDNSResolver (Netfilter.mkTorConfig 5353) None).1
           Examples.resolver_default.2 Examples.dead_network
           (Examples.query "printer.local." Dns.TypeA) I).
Defined.

(** ** The resolver's bypass matcher *)

Section SuffixMatch.
Import GoStrings.

Lemma slice_split (n : nat) (s : string) : slice_to n s +:+ slice_from n s = s.
Proof.
  revert s. induction n as [|n IH]; intros [|c s]; try done.
  simpl. rewrite string_app_cons. by rewrite IH.
Qed.

Lemma HasSuffix_iff (s suffix : string) :
  HasSuffix s suffix = true ↔ ∃ pre, s = pre +:+ suffix.
Proof.
  split.
  - unfold HasSuffix. intros [_ H]%andb_true_iff.
    apply bool_decide_eq_true in H.
    exists (slice_to (len s - len suffix) s).
    rewrite <- (slice_split (len s - len suffix) s) at 1. by f_equal.
  - intros [pre ->]. apply HasSuffix_app.
Qed.

Lemma HasPrefix_iff (s prefix : string) :
  HasPrefix s prefix = true ↔ ∃ rest, s = prefix +:+ rest.
Proof.
  split.
  - unfold HasPrefix. intros [_ H]%andb_true_iff.
    apply bool_decide_eq_true in H.
    exists (slice_from (len prefix) s).
    rewrite <- (slice_split (len prefix) s) at 1. by f_equal.
  - intros [rest ->]. apply HasPrefix_app.
Qed.

End SuffixMatch.

(** X9: the resolver's [matchDomain] treats a pattern [*.X] as "the name
    is [X] or ends in [.X]", and any other pattern, wildcard characters
    included, as a literal that only the identical name matches; the
    comparison is exact in both cases (no case folding). *)
Theorem matchDomain_characterization (pattern domain : string) :
  (∀ X, pattern = "*." +:+ X →
     (Netfilter.matchDomain pattern domain = true
      ↔ domain = X ∨ ∃ pre, domain = pre +:+ "." +:+ X))
  ∧ (GoStrings.HasPrefix pattern "*." = false →
       (Netfilter.matchDomain pattern domain = true ↔ domain = pattern)).
Proof.
  unfold Netfilter.matchDomain. split.
  - intros X ->. rewrite HasPrefix_app.
    change (GoStrings.slice_from 2 ("*." +:+ X)) with X.
    change (GoStrings.slice_from 1 ("*." +:+ X)) with ("." +:+ X).
    rewrite orb_true_iff, bool_decide_eq_true, HasSuffix_iff. tauto.
  - intros ->. rewrite bool_decide_eq_true. split; congruence.
Qed.

Lemma matchDomain_characterization_witness :
  Netfilter.matchDomain "a*b.local" "axb.local" = true ↔ "axb.local" = "a*b.local".
Proof.
  apply (proj2 (matchDomain_characterization "a*b.local" "axb.local")).
  reflexivity.
Defined.

(** ** LeakCheck *)

Section LeakCheckFacts.
Import Netfilter.

Lemma overall_pass_forallb (tests : list LeakTest) :
  overall_pass tests = forallb lt_Passed tests.
Proof.
  induction tests as [|t tests IH]; [done|]. simpl.
  by destruct (lt_Passed t).
Qed.

End LeakCheckFacts.

(** X10: [LeakCheck] reports no error and always two tests, "DNS through
    Tor" and "Direct DNS blocked" in this order; its overall flag is set
    exactly when the probe sent to the anonymizer's DNS port was answered
    with response code success and the direct connection to [8.8.8.8:53]
    could not be opened. *)
Theorem LeakCheck_passes_iff
    (probe : string → Dns.Msg → Dns.Msg + string)
    (dial : string → string → option string)
    (time_Now dns_Id : Z) (RcodeToString : Z → string) (torDNSPort : Z) :
  let out := Netfilter.LeakCheck probe dial time_Now dns_Id RcodeToString torDNSPort in
  let msg := Netfilter.SetQuestion Dns.new_Msg dns_Id "check.torproject.org." Dns.TypeA in
  out.2 = None
  ∧ Netfilter.lt_Name <$> Netfilter.lc_Tests out.1
    = ["DNS through Tor"; "Direct DNS blocked"]
  ∧ (Netfilter.lc_Passed out.1 = true
     ↔ (∃ resp, probe ("127.0.0.1:" +:+ pretty torDNSPort) msg = inl resp
                ∧ Dns.Rcode resp = Dns.RcodeSuccess)
       ∧ is_Some (dial "udp" "8.8.8.8:53")).
Proof.
  intros out msg. subst out. unfold Netfilter.LeakCheck. fold msg.
  cbn [fst snd Netfilter.lc_Tests Netfilter.lc_Passed].
  rewrite overall_pass_forallb.
  destruct (probe _ msg) as [resp|err]; destruct (dial "udp" "8.8.8.8:53") as [e|];
    cbn; (split; [done|]); (split; [done|]).
  - rewrite andb_true_r, bool_decide_eq_true. split.
    + intros H. split; [by exists resp|by eexists].
    + by intros [(resp' & [= <-] & H) _].
  - rewrite andb_false_r. split; [done|]. by intros [_ [? ?]].
  - split; [done|]. by intros [(? & ? & _) _].
  - split; [done|]. by intros [(? & ? & _) _].
Qed.

(** ** Start and Stop *)

(** X11: starting a running server fails with the "already running"
    error and changes nothing; stopping is idempotent and a stopped
    server can be started again.  For the FakeDNS server, neither
    operation touches the mappings: a name keeps its address across a
    stop and a restart. *)
Theorem Start_Stop_lifecycle
    (f : Netfilter.FakeDNSServer) (r : Netfilter.DNSResolver) (port : Z) :
  let f1 := (Netfilter.FakeDNS_Start f).2 in
  let f2 := (Netfilter.FakeDNS_Stop f).2 in
  let r1 := (Netfilter.Start r port).2 in
  let r2 := (Netfilter.Stop r).2 in
  Netfilter.FakeDNS_Start f1 = (Some "FakeDNS already running", f1)
  ∧ Netfilter.FakeDNS_Stop f2 = (None, f2)
  ∧ (Netfilter.FakeDNS_Start f2).1 = None
  ∧ (∀ d, (Netfilter.getFakeIP (Netfilter.FakeDNS_Start f2).2 d).1
          = (Netfilter.getFakeIP f d).1)
  ∧ Netfilter.Start r1 port = (Some "DNS resolver already running", r1)
  ∧ Netfilter.Stop r2 = (None, r2)
  ∧ (Netfilter.Start r2 port).1 = None.
Proof.
  intros f1 f2 r1 r2. subst f1 f2 r1 r2.
  unfold Netfilter.FakeDNS_Start, Netfilter.FakeDNS_Stop, Netfilter.Start,
    Netfilter.Stop, Netfilter.getFakeIP.
  destruct f as [[] ? ? ? ? ? ?], r as [? ? ? ? []]; cbn;
    repeat split; intros; by repeat case_match.
Qed.

(** ** incrementIP on addresses of any length *)

Section Increment.
Import Netfilter.

Lemma ip_to_Z_snoc (p : IP) (b : Z) : ip_to_Z (p ++ [b]) = ip_to_Z p * 256 + b.
Proof. unfold ip_to_Z. by rewrite foldl_app. Qed.

Lemma ip_to_Z_bound (p : IP) :
  valid_bytes p → 0 ≤ ip_to_Z p < 256 ^ Z.of_nat (length p).
Proof.
  induction p as [|b p IH] using rev_ind; intros Hp.
  - unfold ip_to_Z. simpl. lia.
  - apply Forall_app in Hp as [Hp Hb]. apply Forall_inv in Hb.
    specialize (IH Hp). rewrite ip_to_Z_snoc, length_app. simpl.
    rewrite Nat2Z.inj_add, Z.pow_add_r by lia. change (256 ^ Z.of_nat 1) with 256.
    set (M := 256 ^ Z.of_nat (length p)) in *. cbv beta in Hb. lia.
Qed.

Lemma incrementIP_from_prefix (pre suf : IP) :
  valid_bytes pre →
  ∃ pre', incrementIP_from (length pre) (pre ++ suf) = pre' ++ suf
          ∧ length pre' = length pre
          ∧ valid_bytes pre'
          ∧ ip_to_Z pre' = (ip_to_Z pre + 1) mod 256 ^ Z.of_nat (length pre).
Proof.
  revert suf. induction pre as [|b p IH] using rev_ind; intros suf Hpre.
  - exists []. split; [done|]. split; [done|]. split; [constructor|done].
  - apply Forall_app in Hpre as [Hp Hb]. apply Forall_inv in Hb.
    cbv beta in Hb.
    pose proof (ip_to_Z_bound p Hp) as Hrange.
    rewrite length_app, Nat.add_1_r.
    replace ((p ++ [b]) ++ suf) with (p ++ b :: suf) by (by rewrite <- app_assoc).
    cbn [incrementIP_from]. unfold IP in *.
    rewrite list_lookup_middle by done.
    replace (<[length p := (b + 1) mod 256]> (p ++ b :: suf))
      with (p ++ ((b + 1) mod 256) :: suf).
    2:{ rewrite insert_app_r_alt by done. by rewrite Nat.sub_diag. }
    rewrite Nat2Z.inj_succ, Z.pow_succ_r by lia.
    destruct (byte_succ_cases b Hb) as [[Hlt ->]|[-> ->]].
    + replace (0 <? b + 1) with true by (symmetry; apply Z.ltb_lt; lia).
      exists (p ++ [b + 1]). rewrite <- app_assoc. split; [done|].
      split; [rewrite !length_app; simpl; lia|]. split.
      * apply Forall_app. split; [done|]. apply Forall_singleton. lia.
      * rewrite !ip_to_Z_snoc. rewrite Z.mod_small; lia.
    + replace (0 <? 0) with false by done.
      destruct (IH (0 :: suf) Hp) as (p' & Heq & Hlen & Hvalid & Hval).
      rewrite Heq. exists (p' ++ [0]). rewrite <- app_assoc. split; [done|].
      split; [rewrite !length_app; simpl; lia|]. split.
      * apply Forall_app. split; [done|]. apply Forall_singleton. lia.
      * rewrite !ip_to_Z_snoc, Hval.
        replace (ip_to_Z p * 256 + 255 + 1) with (256 * (ip_to_Z p + 1)) by lia.
        rewrite Z.mul_mod_distr_l by lia. lia.
Qed.

End Increment.

(** X12: [incrementIP] is a ripple-carry increment on addresses of any
    length: it keeps the length and the byte range, and adds one to the
    big-endian value modulo 256^length, so the all-ones address wraps to
    the all-zeros address. *)
Theorem incrementIP_adds_one (ip : IP) :
  Netfilter.valid_bytes ip →
  length (Netfilter.incrementIP ip) = length ip
  ∧ Netfilter.valid_bytes (Netfilter.incrementIP ip)
  ∧ Netfilter.ip_to_Z (Netfilter.incrementIP ip)
    = (Netfilter.ip_to_Z ip + 1) mod 256 ^ Z.of_nat (length ip).
Proof.
  intros Hip.
  destruct (incrementIP_from_prefix ip [] Hip) as (ip' & Heq & Hlen & Hvalid & Hval).
  rewrite !app_nil_r in Heq. unfold Netfilter.incrementIP. rewrite Heq. done.
Qed.

Lemma incrementIP_adds_one_witness :
  Netfilter.ip_to_Z
    (Netfilter.incrementIP [32; 1; 13; 184; 0; 0; 0; 0; 0; 0; 0; 0; 0; 0; 255; 255])
  = (Netfilter.ip_to_Z [32; 1; 13; 184; 0; 0; 0; 0; 0; 0; 0; 0; 0; 0; 255; 255] + 1)
    mod 256 ^ 16.
Proof.
  apply (incrementIP_adds_one [32; 1; 13; 184; 0; 0; 0; 0; 0; 0; 0; 0; 0; 0; 255; 255]).
  unfold Netfilter.valid_bytes. repeat constructor; lia.
Defined.

(** ** Reverse-lookup names *)

Section ReverseNames.
Import Netfilter.

Lemma not_dot_eqb (c : ascii) : not_dot c = true → Ascii.eqb c "." = false.
Proof. unfold not_dot. by intros ?%negb_true_iff. Qed.

Lemma splitDNSName_go_label (l rest : string) (parts : list string) (cur : string) :
  string_forall not_dot l = true →
  splitDNSName_go (l +:+ rest) parts cur = splitDNSName_go rest parts (cur +:+ l).
Proof.
  revert cur. induction l as [|c l IH]; intros cur Hl.
  - by rewrite string_app_nil_r.
  - simpl in Hl. apply andb_true_iff in Hl as [Hc Hl].
    rewrite string_app_cons. cbn [splitDNSName_go].
    rewrite (not_dot_eqb _ Hc), IH by done.
    by rewrite string_app_assoc.
Qed.

Lemma splitDNSName_go_join (ls parts : list string) :
  Forall good_label ls →
  splitDNSName_go (join_dots ls) parts "" = parts ++ ls.
Proof.
  intros Hls. revert parts.
  induction Hls as [|l ls [Hne Hl] Hls IH]; intros parts.
  - simpl. by rewrite app_nil_r.
  - destruct ls as [|l' ls].
    + cbn [join_dots]. rewrite <- (string_app_nil_r l) at 1.
      rewrite splitDNSName_go_label by done. cbn.
      by rewrite bool_decide_eq_true_2.
    + change (join_dots (l :: l' :: ls)) with (l +:+ "." +:+ join_dots (l' :: ls)).
      rewrite splitDNSName_go_label by done.
      rewrite string_app_cons. cbn [splitDNSName_go].
      change (Ascii.eqb "." ".") with true. cbn iota.
      rewrite bool_decide_eq_true_2 by done.
      rewrite string_app_empty_l, IH. by rewrite <- app_assoc.
Qed.

Lemma splitDNSName_go_good (s : string) (parts : list string) (cur : string) :
  Forall good_label parts → string_forall not_dot cur = true →
  Forall good_label (splitDNSName_go s parts cur).
Proof.
  revert parts cur. induction s as [|c s IH]; intros parts cur Hparts Hcur.
  - cbn. case_bool_decide; [|done].
    apply Forall_app. split; [done|]. by repeat constructor.
  - cbn [splitDNSName_go]. destruct (Ascii.eqb c ".") eqn:Hc.
    + case_bool_decide; [|by apply IH].
      apply IH; [|done]. apply Forall_app. split; [done|]. by repeat constructor.
    + apply IH; [done|]. rewrite string_forall_app, Hcur. simpl.
      unfold not_dot. by rewrite Hc.
Qed.

Lemma splitDNSName_go_join_then (ls parts : list string) (rest : string) :
  Forall good_label ls → ls ≠ [] →
  splitDNSName_go (join_dots ls +:+ String "." rest) parts ""
  = splitDNSName_go rest (parts ++ ls) "".
Proof.
  intros Hls. revert parts.
  induction Hls as [|l ls [Hne Hl] Hls IH]; intros parts Hnil; [done|].
  destruct ls as [|l' ls].
  - cbn [join_dots]. rewrite splitDNSName_go_label by done.
    cbn [splitDNSName_go]. change (Ascii.eqb "." ".") with true. cbn iota.
    rewrite string_app_empty_l. by rewrite bool_decide_eq_true_2.
  - change (join_dots (l :: l' :: ls)) with (l +:+ "." +:+ join_dots (l' :: ls)).
    rewrite string_app_assoc, splitDNSName_go_label by done.
    rewrite string_app_empty_l, string_app_assoc, string_app_cons, string_app_empty_l.
    cbn [splitDNSName_go]. change (Ascii.eqb "." ".") with true. cbn iota.
    rewrite bool_decide_eq_true_2 by done.
    rewrite IH by done. by rewrite <- app_assoc.
Qed.

End ReverseNames.

(** X13: [splitDNSName] returns the labels of a dotted name: every part
    it returns is non-empty and free of dots, for any input; and on
    non-empty dot-free labels joined by single dots it returns exactly
    those labels, also when the name carries a final dot. *)
Theorem splitDNSName_labels (s : string) (labels : list string) :
  Forall Netfilter.good_label (Netfilter.splitDNSName s)
  ∧ (Forall Netfilter.good_label labels →
       Netfilter.splitDNSName (Netfilter.join_dots labels) = labels
       ∧ Netfilter.splitDNSName (Netfilter.join_dots labels +:+ ".") = labels).
Proof.
  split; [by apply splitDNSName_go_good|].
  intros Hls. unfold Netfilter.splitDNSName. split.
  - by rewrite splitDNSName_go_join.
  - destruct labels as [|l ls]; [done|].
    by rewrite splitDNSName_go_join_then.
Qed.

Lemma splitDNSName_labels_witness :
  Netfilter.splitDNSName "1.0.18.198." = ["1"; "0"; "18"; "198"].
Proof.
  apply (proj2 (splitDNSName_labels "" ["1"; "0"; "18"; "198"])).
  repeat constructor; done.
Defined.

Section PtrToIP.
Import Netfilter.

Lemma pretty_N_go_length (x : N) (s : string) :
  (String.length s ≤ String.length (pretty_N_go x s))%nat.
Proof.
  revert s. induction (N.lt_wf_0 x) as [x _ IH]; intros s.
  destruct (decide (x = 0)%N) as [->|Hx]; [done|].
  rewrite pretty_N_go_step by lia.
  etrans; [|apply IH; apply N.div_lt; lia]. simpl. lia.
Qed.

Lemma pretty_Z_nonempty (z : Z) : pretty z ≠ "".
Proof.
  assert (Hpos : ∀ p : positive, pretty (Z.pos p) ≠ "").
  { intros p. unfold pretty, pretty_Z, pretty, pretty_positive, pretty, pretty_N.
    case_decide; [done|].
    pose proof (pretty_N_go_step (N.pos p) "" ltac:(lia)) as Hstep.
    pose proof (pretty_N_go_length (N.pos p `div` 10)
                  (String (pretty_N_char (N.pos p `mod` 10)) "")) as Hlen.
    rewrite <- Hstep in Hlen. intros Heq. rewrite Heq in Hlen. simpl in Hlen. lia. }
  destruct z as [|p|p]; [done|apply Hpos|].
  change (pretty (Z.neg p)) with ("-" +:+ pretty (Z.pos p)). done.
Qed.

Lemma pretty_Z_good_label (z : Z) : good_label (pretty z).
Proof. split; [apply pretty_Z_nonempty | apply pretty_Z_no_dot]. Qed.

Lemma has_upper_app (a b : string) :
  Bypass.has_upper (a +:+ b) = Bypass.has_upper a || Bypass.has_upper b.
Proof.
  induction a as [|c a IH]; [done|].
  rewrite string_app_cons. simpl. by rewrite IH, orb_assoc.
Qed.

Lemma ToLower_no_upper (s : string) :
  Bypass.has_upper s = false → GoStrings.ToLower s = s.
Proof.
  induction s as [|c s IH]; [done|]. simpl.
  intros [Hc Hs]%orb_false_iff. rewrite IH by done. f_equal.
  unfold GoStrings.lower_char. unfold Bypass.is_upper in Hc. by rewrite Hc.
Qed.

Lemma decimal_no_upper (s : string) :
  string_forall digit_or_dash s = true → Bypass.has_upper s = false.
Proof.
  induction s as [|c s IH]; [done|]. simpl.
  intros [Hc Hs]%andb_true_iff. rewrite IH by done.
  rewrite orb_false_r. ascii_cases c; done.
Qed.

Lemma pretty_Z_no_upper (z : Z) : Bypass.has_upper (pretty z) = false.
Proof. apply decimal_no_upper, pretty_Z_digit_or_dash. Qed.

Lemma CanonicalName_arpa (body : string) :
  Bypass.has_upper body = false →
  Dns.CanonicalName (body +:+ ".in-addr.arpa.") = body +:+ ".in-addr.arpa.".
Proof.
  intros Hb. unfold Dns.CanonicalName, Dns.Fqdn, Dns.IsFqdn, String.rev.
  rewrite rev_app_app. cbn.
  apply ToLower_no_upper. by rewrite has_upper_app, Hb.
Qed.

Lemma ptrToIP_arpa (body : string) (p0 p1 p2 p3 : string) :
  Bypass.has_upper body = false →
  splitDNSName body = [p0; p1; p2; p3] →
  ptrToIP (body +:+ ".in-addr.arpa.")
  = p3 +:+ "." +:+ p2 +:+ "." +:+ p1 +:+ "." +:+ p0.
Proof.
  intros Hb Hsplit. unfold ptrToIP. rewrite CanonicalName_arpa by done.
  assert (Hlen : GoStrings.len (body +:+ ".in-addr.arpa.") = (GoStrings.len body + 14)%nat).
  { unfold GoStrings.len. by rewrite string_length_app. }
  rewrite Hlen.
  rewrite bool_decide_eq_false_2 by lia.
  replace (GoStrings.len body + 14 - 14)%nat with (GoStrings.len body) by lia.
  rewrite slice_from_app, slice_to_app.
  rewrite bool_decide_eq_false_2 by (intros H; by apply H).
  by rewrite Hsplit.
Qed.

End PtrToIP.

Lemma ptrToIP_of_reverse_name (ip : IP) :
  length ip = 4%nat →
  Netfilter.ptrToIP (Netfilter.reverse_name ip) = Netfilter.IP_String ip.
Proof.
  intros Hlen. destruct ip as [|a [|b [|c [|d [|]]]]]; try done.
  unfold Netfilter.reverse_name. cbn [rev app fmap list_fmap].
  apply ptrToIP_arpa.
  - cbn [Netfilter.join_dots]. rewrite !has_upper_app, !pretty_Z_no_upper. done.
  - unfold Netfilter.splitDNSName. rewrite splitDNSName_go_join; [done|].
    repeat constructor; apply pretty_Z_good_label.
Qed.

(** X14: decoding the reverse-lookup name of a four-byte address gives
    back its dotted form: [ptrToIP] applied to
    [d.c.b.a.in-addr.arpa.] is [a.b.c.d]. *)
Theorem ptrToIP_reverse_name (ip : IP) :
  length ip = 4%nat →
  Netfilter.ptrToIP (Netfilter.reverse_name ip) = Netfilter.IP_String ip.
Proof. exact (ptrToIP_of_reverse_name ip). Qed.

Lemma ptrToIP_reverse_name_witness :
  Netfilter.ptrToIP "1.0.18.198.in-addr.arpa." = "198.18.0.1".
Proof. exact (ptrToIP_reverse_name [198; 18; 0; 1] eq_refl). Defined.



Lemma reverse_lookup_after_alloc
    (f0 : Netfilter.FakeDNSServer) (ds : list string) (d : string) :
  Netfilter.constructed f0 →
  let r := Netfilter.getFakeIP (Netfilter.calls ds f0) d in
  Z.of_nat (Netfilter.GetMappingCount r.2) ≤ Netfilter.address_space →
  Netfilter.getReverseDomain r.2 (Netfilter.reverse_name r.1) = Dns.CanonicalName d.
Proof.
  intros Hf r Hsize.
  assert (Hstate : r.2 = Netfilter.calls (ds ++ [d]) f0) by (by rewrite calls_snoc).
  pose proof (getFakeIP_lookup (Netfilter.calls ds f0) d) as Hlook. fold r in Hlook.
  rewrite Hstate in Hsize.
  destruct (allocator_in_order_calls _ f0 Hf Hsize) as (_ & _ & Hfwd).
  destruct (allocator_sound_calls (ds ++ [d]) f0 (allocator_sound_init _ Hf))
    as (_ & Hvalid & _).
  rewrite <- Hstate in Hfwd, Hvalid.
  destruct (Hvalid _ _ Hlook) as [Hlen _].
  unfold Netfilter.getReverseDomain. rewrite (ptrToIP_of_reverse_name _ Hlen).
  rewrite bool_decide_eq_false_2.
  - by rewrite (Hfwd _ _ Hlook).
  - destruct r.1 as [|a [|b [|c [|e [|]]]]]; try done.
    unfold Netfilter.IP_String. intros Heq.
    destruct (pretty a) eqn:Ha; [by apply pretty_Z_nonempty in Ha|].
    by rewrite string_app_cons in Heq.
Qed.

(** X16: while the cursor has not gone round (at most 2^32 names
    allocated on a server constructed for an IPv4 block), the reverse
    lookup by name inverts the allocation: [getReverseDomain] applied to
    the reverse-lookup name of the address that [getFakeIP] returns for a
    name yields the canonical form of that name. *)
Theorem getReverseDomain_inverts_getFakeIP
    (f0 : Netfilter.FakeDNSServer) (ds : list string) (d : string) :
  Netfilter.constructed f0 →
  let r := Netfilter.getFakeIP (Netfilter.calls ds f0) d in
  Z.of_nat (Netfilter.GetMappingCount r.2) ≤ Netfilter.address_space →
  Netfilter.getReverseDomain r.2 (Netfilter.reverse_name r.1) = Dns.CanonicalName d.
Proof. exact (reverse_lookup_after_alloc f0 ds d). Qed.

Lemma getReverseDomain_inverts_getFakeIP_witness :
  Netfilter.getReverseDomain
    (Netfilter.getFakeIP Examples.fake_server "Example.COM").2
    "1.0.18.198.in-addr.arpa."
  = "example.com.".
Proof.
  apply (getReverseDomain_inverts_getFakeIP Examples.fake_server [] "Example.COM"
           fake_server_constructed).
  vm_compute. discriminate.
Defined.

(** ** The FakeDNS handler *)

Section FakeHandler.
Import Netfilter.

Lemma FakeDNS_handleDNS_run (req : Dns.Msg) w (f : FakeDNSServer) tr :
  FakeDNS_handleDNS req w f tr
  = let st := foldl (λ st q, answer_question q st)
                (Dns.with_Authoritative (Dns.SetReply Dns.new_Msg req) true, f)
                (Dns.Questions req) in
    (Returns tt, st.2, tr ++ [Wrote st.1]).
Proof.
  unfold FakeDNS_handleDNS, mbind, io_bind, io_get, io_put, WriteMsg.
  cbn zeta. by destruct (foldl _ _ _).
Qed.

(** What one question can change: the answer section grows by at most
    one record, the header stays, mappings are only added. *)
Lemma answer_question_step (q : Dns.Question) (m : Dns.Msg) (f : FakeDNSServer) :
  let st := answer_question q (m, f) in
  same_header m st.1
  ∧ (length (Dns.Answer st.1) ≤ S (length (Dns.Answer m)))%nat
  ∧ (∀ k ip, mappings f !! k = Some ip → mappings st.2 !! k = Some ip)
  ∧ (Dns.Qtype q ≠ Dns.TypeA → st.2 = f)
  ∧ ttl st.2 = ttl f.
Proof.
  unfold answer_question, same_header.
  case_bool_decide as HA.
  - pose proof (getFakeIP_preserves f (Dns.q_Name q)) as Hpres.
    assert (Httl : ttl (getFakeIP f (Dns.q_Name q)).2 = ttl f).
    { unfold getFakeIP. by case_match. }
    destruct (getFakeIP f (Dns.q_Name q)) as [ip f'] eqn:E. cbn in *.
    rewrite length_app. cbn. repeat split; try done; try lia; auto.
  - repeat case_bool_decide; cbn; rewrite ?length_app; cbn;
      repeat split; try done; try lia; auto.
Qed.

Lemma answer_questions_fold (qs : list Dns.Question) (m : Dns.Msg) (f : FakeDNSServer) :
  let st := foldl (λ st q, answer_question q st) (m, f) qs in
  same_header m st.1
  ∧ (length (Dns.Answer st.1) ≤ length qs + length (Dns.Answer m))%nat
  ∧ (∀ k ip, mappings f !! k = Some ip → mappings st.2 !! k = Some ip)
  ∧ (Forall (λ q, Dns.Qtype q ≠ Dns.TypeA) qs → st.2 = f).
Proof.
  revert m f. induction qs as [|q qs IH]; intros m f.
  - cbn. unfold same_header. repeat split; auto.
  - cbn [foldl].
    destruct (answer_question_step q m f) as (Hh & Hl & Hm & Hs & _).
    destruct (answer_question q (m, f)) as [m1 f1]. cbn [fst snd] in *.
    destruct (IH m1 f1) as (Hh' & Hl' & Hm' & Hs').
    destruct Hh as (h1 & h2 & h3 & h4 & h5), Hh' as (k1 & k2 & k3 & k4 & k5).
    split; [unfold same_header; repeat split; congruence|].
    split; [cbn; lia|]. split; [auto|].
    intros Hall. apply Forall_cons in Hall as [Hq Hall].
    rewrite (Hs' Hall). by apply Hs.
Qed.

End FakeHandler.

(** X17: for a message with a single question of type A, the FakeDNS
    handler replies with exactly one A record for the queried name,
    carrying the address [getFakeIP] gives that name and the configured
    TTL; the reply is authoritative with response code success and the
    identifier of the query, and the server afterwards is the one
    [getFakeIP] leaves. *)
Theorem FakeDNS_handleDNS_answers_A
    (req : Dns.Msg) (q : Dns.Question) (w : Netfilter.World)
    (f : Netfilter.FakeDNSServer) :
  Dns.Questions req = [q] →
  Dns.Qtype q = Dns.TypeA →
  let alloc := Netfilter.getFakeIP f (Dns.q_Name q) in
  ∃ reply,
    Netfilter.run (Netfilter.FakeDNS_handleDNS req) w f
    = (Returns tt, alloc.2, [Netfilter.Wrote reply])
    ∧ Dns.Answer reply
      = [Dns.RR_A (Dns.mkHeader (Dns.q_Name q) Dns.TypeA Dns.ClassINET
                     (Netfilter.ttl f)) alloc.1]
    ∧ Dns.Rcode reply = Dns.RcodeSuccess
    ∧ Dns.Authoritative reply = true
    ∧ Dns.Response reply = true
    ∧ Dns.Id reply = Dns.Id req
    ∧ Dns.Questions reply = [q].
Proof.
  intros Hq HA alloc. unfold Netfilter.run.
  rewrite FakeDNS_handleDNS_run, Hq. cbn [foldl]. unfold Netfilter.answer_question.
  rewrite bool_decide_eq_true_2 by done. fold alloc.
  destruct alloc as [ip f']. cbn. eexists. split; [done|].
  unfold Dns.SetReply. rewrite Hq. by cbn.
Qed.

Lemma FakeDNS_handleDNS_answers_A_witness :
  Dns.Answer <$> Netfilter.replies
    (Netfilter.run
       (Netfilter.FakeDNS_handleDNS (Examples.query "example.com." Dns.TypeA))
       Examples.dead_network Examples.fake_server).2
  = [[Dns.RR_A (Dns.mkHeader "example.com." Dns.TypeA Dns.ClassINET 60)
        [198; 18; 0; 1]]].
Proof.
  destruct (FakeDNS_handleDNS_answers_A (Examples.query "example.com." Dns.TypeA)
              (Dns.mkQuestion "example.com." Dns.TypeA Dns.ClassINET)
              Examples.dead_network Examples.fake_server eq_refl eq_refl)
    as (reply & Hrun & Hanswer & _).
  rewrite Hrun. cbn. by rewrite Hanswer.
Defined.

(** X18: whatever the message, the FakeDNS handler queries no upstream
    server and writes exactly one reply, which is an authoritative
    response with response code success, the identifier of the query and
    at most one answer per question.  It never drops or changes a
    mapping, and when no question is of type A (so also for AAAA
    questions, which get an empty answer) it leaves the server as it
    was. *)
Theorem FakeDNS_handleDNS_one_reply
    (req : Dns.Msg) (w : Netfilter.World) (f : Netfilter.FakeDNSServer) :
  ∃ reply f',
    Netfilter.run (Netfilter.FakeDNS_handleDNS req) w f
    = (Returns tt, f', [Netfilter.Wrote reply])
    ∧ Dns.Rcode reply = Dns.RcodeSuccess
    ∧ Dns.Response reply = true
    ∧ Dns.Authoritative reply = true
    ∧ Dns.Id reply = Dns.Id req
    ∧ (length (Dns.Answer reply) ≤ length (Dns.Questions req))%nat
    ∧ (∀ k ip, Netfilter.mappings f !! k = Some ip →
               Netfilter.mappings f' !! k = Some ip)
    ∧ (Forall (λ q, Dns.Qtype q ≠ Dns.TypeA) (Dns.Questions req) → f' = f).
Proof.
  unfold Netfilter.run. rewrite FakeDNS_handleDNS_run. cbn zeta.
  destruct (answer_questions_fold (Dns.Questions req)
              (Dns.with_Authoritative (Dns.SetReply Dns.new_Msg req) true) f)
    as ((h1 & h2 & h3 & h4 & _) & Hl & Hm & Hs).
  eexists _, _. split; [done|].
  rewrite h1, h2, h3, h4. cbn in Hl. rewrite Nat.add_0_r in Hl. done.
Qed.

(** X19: while the cursor has not gone round, a PTR question for the
    reverse-lookup name of the address that a name was given is answered
    with one PTR record carrying the canonical form of that name, and the
    server is left as it was. *)
Theorem FakeDNS_handleDNS_answers_PTR
    (f0 : Netfilter.FakeDNSServer) (ds : list string) (d : string)
    (req : Dns.Msg) (q : Dns.Question) (w : Netfilter.World) :
  Netfilter.constructed f0 →
  let alloc := Netfilter.getFakeIP (Netfilter.calls ds f0) d in
  Z.of_nat (Netfilter.GetMappingCount alloc.2) ≤ Netfilter.address_space →
  Dns.Questions req = [q] →
  Dns.Qtype q = Dns.TypePTR →
  Dns.q_Name q = Netfilter.reverse_name alloc.1 →
  ∃ reply,
    Netfilter.run (Netfilter.FakeDNS_handleDNS req) w alloc.2
    = (Returns tt, alloc.2, [Netfilter.Wrote reply])
    ∧ Dns.Answer reply
      = [Dns.RR_PTR (Dns.mkHeader (Dns.q_Name q) Dns.TypePTR Dns.ClassINET
                       (Netfilter.ttl alloc.2)) (Dns.CanonicalName d)].
Proof.
  intros Hf alloc Hsize Hq Hptr Hname.
  pose proof (reverse_lookup_after_alloc f0 ds d Hf Hsize) as Hrev.
  fold alloc in Hrev. rewrite <- Hname in Hrev.
  assert (Hne : Dns.CanonicalName d ≠ "").
  { unfold Dns.CanonicalName, Dns.Fqdn. destruct (Dns.IsFqdn d) eqn:E.
    - destruct d; [done|]. done.
    - destruct d; done. }
  unfold Netfilter.run.
  rewrite FakeDNS_handleDNS_run, Hq. cbn [foldl]. unfold Netfilter.answer_question.
  rewrite Hptr, Hrev.
  rewrite (bool_decide_eq_false_2 (Dns.TypePTR = Dns.TypeA)) by done.
  rewrite (bool_decide_eq_false_2 (Dns.TypePTR = Dns.TypeAAAA)) by done.
  rewrite (bool_decide_eq_true_2 (Dns.TypePTR = Dns.TypePTR)) by done.
  rewrite bool_decide_eq_true_2 by done.
  cbn. by eexists.
Qed.

Lemma FakeDNS_handleDNS_answers_PTR_witness :
  Dns.Answer <$> Netfilter.replies
    (Netfilter.run
       (Netfilter.FakeDNS_handleDNS (Examples.query "1.0.18.198.in-addr.arpa." Dns.TypePTR))
       Examples.dead_network
       (Netfilter.getFakeIP Examples.fake_server "Example.COM").2).2
  = [[Dns.RR_PTR (Dns.mkHeader "1.0.18.198.in-addr.arpa." Dns.TypePTR Dns.ClassINET 60)
        "example.com."]].
Proof.
  destruct (FakeDNS_handleDNS_answers_PTR Examples.fake_server [] "Example.COM"
              (Examples.query "1.0.18.198.in-addr.arpa." Dns.TypePTR)
              (Dns.mkQuestion "1.0.18.198.in-addr.arpa." Dns.TypePTR Dns.ClassINET)
              Examples.dead_network fake_server_constructed)
    as (reply & Hrun & Hanswer); [vm_compute; discriminate|reflexivity..|].
  unfold Netfilter.calls in Hrun, Hanswer. cbn [foldl] in Hrun, Hanswer.
  rewrite Hrun. cbn. by rewrite Hanswer.
Defined.

(** ** The engine: case, rule mutation, precedence *)

Section EngineFacts.
Import Bypass.

Lemma lower_char_idemp (c : ascii) :
  GoStrings.lower_char (GoStrings.lower_char c) = GoStrings.lower_char c.
Proof. ascii_cases c; reflexivity. Qed.

Lemma ToLower_idemp (s : string) :
  GoStrings.ToLower (GoStrings.ToLower s) = GoStrings.ToLower s.
Proof.
  induction s as [|c s IH]; [done|]. simpl. by rewrite lower_char_idemp, IH.
Qed.

Lemma lower_char_not_upper (c : ascii) : is_upper (GoStrings.lower_char c) = false.
Proof. ascii_cases c; reflexivity. Qed.

Lemma ToLower_no_upper_out (s : string) : has_upper (GoStrings.ToLower s) = false.
Proof.
  induction s as [|c s IH]; [done|]. simpl. by rewrite lower_char_not_upper, IH.
Qed.

Lemma upper_is_literal (c : ascii) : is_upper c = true → glob_node c = Regexp.Lit c.
Proof. intros H. apply glob_node_literal; intros ->; done. Qed.

Lemma glob_match_keeps_upper (p s : string) :
  Regexp.match_nodes (glob_nodes p) s = true →
  has_upper p = true → has_upper s = true.
Proof.
  revert s. induction p as [|c p IH]; intros s Hm Hup; [done|].
  simpl in Hup. simpl glob_nodes in Hm.
  destruct (is_upper c) eqn:Hc.
  { rewrite upper_is_literal in Hm by done.
    apply match_nodes_lit in Hm as (s' & -> & _). simpl. by rewrite Hc. }
  simpl in Hup.
  destruct (decide (c = "*"%char)) as [->|Hstar].
  { change (glob_node "*") with Regexp.StarAnyNotNL in Hm.
    induction s as [|x s IHs].
    - rewrite match_star_unfold, orb_false_r in Hm. by apply IH.
    - rewrite match_star_unfold in Hm. apply orb_true_iff in Hm as [Hm|Hm].
      + by apply IH.
      + apply andb_true_iff in Hm as [_ Hm]. simpl.
        rewrite (IHs Hm). apply orb_true_r. }
  destruct (decide (c = "?"%char)) as [->|Hq].
  { change (glob_node "?") with Regexp.AnyNotNL in Hm.
    destruct s as [|x s]; [done|]. simpl in Hm.
    apply andb_true_iff in Hm as [_ Hm]. simpl.
    rewrite (IH _ Hm Hup). apply orb_true_r. }
  rewrite glob_node_literal in Hm by done.
  apply match_nodes_lit in Hm as (s' & -> & Hm). simpl.
  rewrite (IH _ Hm Hup). apply orb_true_r.
Qed.

Lemma upper_pattern_rejects (p name : string) :
  has_upper p = true → glob_accepts p (GoStrings.ToLower name) = false.
Proof.
  intros Hup. rewrite glob_accepts_nodes.
  destruct (Regexp.match_nodes _ _) eqn:Hm; [|done].
  apply glob_match_keeps_upper in Hm; [|done].
  by rewrite ToLower_no_upper_out in Hm.
Qed.

Lemma compile_custom_nil ParseCIDR (acc : list Rule) :
  compile_custom ParseCIDR [] acc = acc.
Proof. done. Qed.

End EngineFacts.

(** X20: [MatchDomain] ignores the case of the queried name: a name and
    its lower-case form get the same result. *)
Theorem MatchDomain_ignores_case (e : Bypass.Engine) (name : string) :
  Bypass.MatchDomain e name = Bypass.MatchDomain e (GoStrings.ToLower name).
Proof. unfold Bypass.MatchDomain. by rewrite ToLower_idemp. Qed.

(** X21: patterns are not case-folded, while the queried name is: a
    pattern that contains an upper-case letter accepts no lower-cased
    name, so an engine whose configured domain patterns all contain an
    upper-case letter and which has no custom rules matches no name. *)
Theorem uppercase_patterns_never_match
    (ParseCIDR : string → option IPNet)
    (geoip2_Open : string → option Bypass.Reader)
    (c : Bypass.BypassConfig) (name : string) :
  Forall (λ p, Bypass.has_upper p = true) (Bypass.Domains c) →
  Bypass.CustomRules c = [] →
  Forall (λ p, Bypass.glob_accepts p (GoStrings.ToLower name) = false)
    (Bypass.Domains c)
  ∧ Bypass.MatchDomain (Bypass.NewEngine ParseCIDR geoip2_Open c) name
    = Bypass.not_matched.
Proof.
  intros Hup Hnone.
  assert (Hrej : Forall (λ p, Bypass.glob_accepts p (GoStrings.ToLower name) = false)
                   (Bypass.Domains c)).
  { eapply Forall_impl; [exact Hup|]. intros p Hp. by apply upper_pattern_rejects. }
  split; [exact Hrej|].
  rewrite MatchDomain_refines. unfold Bypass.MatchDomain_spec.
  destruct (Bypass.Enabled _); [|done].
  cbn [Bypass.NewEngine Bypass.compileRules Bypass.domainPatterns
       Bypass.customRules Bypass.cfg].
  rewrite Hnone, compile_domains_map. cbn [app Bypass.compile_custom].
  assert (Hall : Forall (λ re, Regexp.MatchString re (GoStrings.ToLower name) = false)
                   ((λ p, Regexp.mk (Bypass.glob_regex_source p) (Bypass.glob_nodes p))
                      <$> Bypass.Domains c)).
  { apply Forall_fmap. eapply Forall_impl; [exact Hrej|].
    intros p Hp. cbv beta in Hp. rewrite glob_accepts_nodes in Hp. exact Hp. }
  by rewrite (find_none _ _ Hall).
Qed.

Lemma uppercase_patterns_never_match_witness :
  Bypass.MatchDomain
    (Bypass.NewEngine Examples.no_cidr Examples.no_database
       (Bypass.mkBypassConfig true ["*.Local"] [] [] [] []
          (Bypass.mkGeoIPConfig false "" [])))
    "test.Local"
  = Bypass.not_matched.
Proof.
  apply (uppercase_patterns_never_match Examples.no_cidr Examples.no_database
           (Bypass.mkBypassConfig true ["*.Local"] [] [] [] []
              (Bypass.mkGeoIPConfig false "" [])) "test.Local").
  - repeat constructor.
  - reflexivity.
Defined.

Section RuleMutation.
Import Bypass.





Lemma remove_first_some (name : string) (pre post : list Rule) (r : Rule) :
  Forall (λ r', Name r' ≠ name) pre → Name r = name →
  remove_first name (pre ++ r :: post) = Some (pre ++ post).
Proof.
  induction 1 as [|r' pre Hr' _ IH]; intros Hr; simpl.
  - by rewrite bool_decide_eq_true_2.
  - rewrite bool_decide_eq_false_2 by done. by rewrite IH.
Qed.

End RuleMutation.





(** X24: adding a rule under a name that no custom rule carries and then
    removing that name gives back the engine as it was. *)
Theorem AddRule_RemoveRule_round_trip
    (ParseCIDR : string → option IPNet) (e e' : Bypass.Engine) (rule : Bypass.Rule) :
  Forall (λ r, Bypass.Name r ≠ Bypass.Name rule) (Bypass.customRules e) →
  Bypass.AddRule ParseCIDR e rule = Some e' →
  Bypass.RemoveRule e' (Bypass.Name rule) = (true, e).
Proof.
  intros Hfresh Hadd. unfold Bypass.AddRule in Hadd.
  destruct (Bypass.compileRule ParseCIDR rule) as [rule'|] eqn:Hc; [|done].
  injection Hadd as <-.
  assert (Hname : Bypass.Name rule' = Bypass.Name rule).
  { unfold Bypass.compileRule in Hc.
    repeat case_bool_decide; repeat case_match; by simplify_eq. }
  unfold Bypass.RemoveRule. cbn [Bypass.customRules].
  rewrite (remove_first_some _ _ [] _ Hfresh Hname), app_nil_r.
  by destruct e.
Qed.

Lemma AddRule_RemoveRule_round_trip_witness :
  Bypass.RemoveRule
    (Bypass.mkEngine (Bypass.cfg Examples.domain_engine)
       (Bypass.domainPatterns Examples.domain_engine)
       (Bypass.cidrNets Examples.domain_engine)
       (Bypass.protocols Examples.domain_engine)
       (Bypass.applications Examples.domain_engine)
       [Bypass.mkRule "r1" Bypass.RuleTypeDomain "*.example" Bypass.ActionBypass ""
          (Bypass.RegexpMatcher
             (Regexp.mk (Bypass.glob_regex_source "*.example")
                (Bypass.glob_nodes "*.example")))]
       (Bypass.geoIP Examples.domain_engine))
    "r1"
  = (true, Examples.domain_engine).
Proof.
  apply (AddRule_RemoveRule_round_trip Examples.no_cidr Examples.domain_engine _
           (Bypass.mkRule "r1" Bypass.RuleTypeDomain "*.example" Bypass.ActionBypass
              "" Bypass.NoMatcher)).
  - constructor.
  - reflexivity.
Defined.



(** ** The engine's other checks *)

Section EngineSets.
Import Bypass.


Lemma find_is_Some_Exists {A} (f : A → bool) (l : list A) :
  is_Some (List.find f l) ↔ Exists (λ x, f x = true) l.
Proof.
  induction l as [|x l IH]; simpl.
  - split; [by intros [? ?]|by intros ?%Exists_nil].
  - destruct (f x) eqn:E.
    + split; [intros _; by apply Exists_cons_hd|by eexists].
    + rewrite IH. split; [by apply Exists_cons_tl|].
      intros [?|?]%Exists_cons; [congruence|done].
Qed.

Lemma match_cidrs_find IPNet_String (nets : list IPNet) (ip : IP) :
  match_cidrs IPNet_String nets ip
  = (λ n, mkMatchResult true None ActionBypass ("matches CIDR " +:+ IPNet_String n))
      <$> List.find (λ n, GoNet.Contains n ip) nets.
Proof.
  induction nets as [|n nets IH]; [done|]. simpl.
  by destruct (GoNet.Contains n ip).
Qed.

Lemma match_custom_cidr_find (rules : list Rule) (ip : IP) :
  match_custom_cidr rules ip
  = (λ r, mkMatchResult true (Some r) (Action_ r) (Description r))
      <$> List.find (cidr_rule_applies ip) rules.
Proof.
  induction rules as [|r rules IH]; [done|]. simpl. unfold cidr_rule_applies at 1.
  case_bool_decide; [|done]. simpl.
  destruct (compiled r) as [| |n]; try done.
  by destruct (GoNet.Contains n ip).
Qed.





End EngineSets.


Ltac split_cases :=
  intros;
  repeat match goal with
         | H : _ ∨ _ |- _ => destruct H
         | H : _ ∧ _ |- _ => destruct H
         | H : ∃ _, _ |- _ => destruct H
         | H : is_Some _ |- _ => destruct H
         end;
  try discriminate; try congruence.

(** X27: [MatchIP] reports a match exactly when the engine is enabled
    and the address lies in a configured block, or the country matcher
    accepts it, or a custom rule of type cidr holds a block containing it.
    The configuration wins over the custom rules: in the first two cases
    the action is bypass and no rule is attached, whatever the custom rules
    say. *)
Theorem MatchIP_matches_and_precedence
    (IPNet_String : IPNet → string) (e : Bypass.Engine) (ip : IP) :
  let r := Bypass.MatchIP IPNet_String e ip in
  let by_config :=
    Exists (λ n, GoNet.Contains n ip = true) (Bypass.cidrNets e)
    ∨ (is_Some (Bypass.geoIP e)
       ∧ ∃ country, Bypass.Match (Bypass.geoIP e) ip = Returns (country, true)) in
  (Bypass.Matched r = true ↔
     Bypass.Enabled (Bypass.cfg e) = true
     ∧ (by_config
        ∨ Exists (λ r, Bypass.cidr_rule_applies ip r = true) (Bypass.customRules e)))
  ∧ (Bypass.Enabled (Bypass.cfg e) = true → by_config →
       Bypass.ResultAction r = Bypass.ActionBypass ∧ Bypass.Rule_ r = None).
Proof.
  intros r by_config. subst r by_config. unfold Bypass.MatchIP.
  rewrite match_cidrs_find, match_custom_cidr_find.
  rewrite <- (find_is_Some_Exists (λ n, GoNet.Contains n ip)).
  rewrite <- (find_is_Some_Exists (Bypass.cidr_rule_applies ip)).
  destruct (Bypass.Enabled (Bypass.cfg e)); cbn [negb]; [|split; [|done]].
  2:{ split; [done|]. by intros [? _]. }
  destruct (List.find _ (Bypass.cidrNets e)) as [n|]; cbn [fmap option_fmap option_map].
  { split; [|done]. split; [|done]. intros _. split; [done|]. left. left. by eexists. }
  unfold Bypass.match_country.
  destruct (Bypass.geoIP e) as [g|].
  - destruct (Bypass.Match (Some g) ip) as [[country [|]]|msg] eqn:Hm.
    + split; [|done]. split; [|done]. intros _. split; [done|].
      left. right. split; [by eexists|]. by exists country.
    + destruct (List.find _ (Bypass.customRules e)) as [r|]; cbn;
        (split; [split; [intros _; split; [done|right; by eexists]|done]|split_cases])
        || (split; [split; [done|split_cases]|split_cases]).
    + destruct (List.find _ (Bypass.customRules e)) as [r|]; cbn;
        (split; [split; [intros _; split; [done|right; by eexists]|done]|split_cases])
        || (split; [split; [done|split_cases]|split_cases]).
  - destruct (List.find _ (Bypass.customRules e)) as [r|]; cbn;
      (split; [split; [intros _; split; [done|right; by eexists]|done]|split_cases])
      || (split; [split; [done|split_cases]|split_cases]).
Qed.



(** ** The country matcher *)

Section GeoIPFacts.
Import Bypass.

Lemma build_country_set_lookup_from (cs : list string) (m : gmap string bool) (k : string) :
  default false (foldl (λ m c, <[c := true]> m) m cs !! k)
  = bool_decide (k ∈ cs) || default false (m !! k).
Proof.
  revert m. induction cs as [|c cs IH]; intros m.
  - cbn [foldl]. rewrite bool_decide_eq_false_2; [done|]. apply not_elem_of_nil.
  - cbn [foldl]. rewrite IH.
    destruct (decide (k = c)) as [->|Hne].
    + rewrite lookup_insert_eq. cbn.
      rewrite (bool_decide_eq_true_2 (_ ∈ _ :: _)) by apply list_elem_of_here.
      by rewrite orb_true_r.
    + rewrite lookup_insert_ne by done.
      destruct (decide (k ∈ cs)) as [Hin|Hnin].
      * rewrite !bool_decide_eq_true_2; [done|by apply list_elem_of_further|done].
      * rewrite !bool_decide_eq_false_2; [done| |done].
        intros [?|?]%elem_of_cons; done.
Qed.

Lemma build_country_set_lookup (cs : list string) (k : string) :
  default false (build_country_set cs !! k) = bool_decide (k ∈ cs).
Proof.
  unfold build_country_set. rewrite build_country_set_lookup_from, lookup_empty.
  apply orb_false_r.
Qed.

End GeoIPFacts.

(** X29: a matcher that [NewGeoIPMatcher] returns holds an open database,
    and [Match] follows the country list it was given: an address matches
    exactly when the database knows its country and that country is in the
    list; the country returned is then the one [GetCountry] reports.
    [AddCountry] and [RemoveCountry] on such a matcher change the answer
    for the given code only. *)
Theorem Match_follows_country_list
    (geoip2_Open : string → option Bypass.Reader) (dbPath : string)
    (cs : list string) (m : Bypass.GeoIPMatcher) (ip : IP) (code : string) :
  Bypass.NewGeoIPMatcher geoip2_Open dbPath cs = (Some m, None) →
  ∃ d,
    let answer (listed : string → bool) : outcome (string * bool) :=
      match Bypass.Country d ip with
      | Some country =>
          if listed country then Returns (country, true) else Returns ("", false)
      | None => Returns ("", false)
      end in
    Bypass.db m = Some d
    ∧ Bypass.GetCountry (Some m) ip = Returns (default "" (Bypass.Country d ip))
    ∧ Bypass.Match (Some m) ip = answer (λ c, bool_decide (c ∈ cs))
    ∧ (∃ m', Bypass.AddCountry (Some m) code = Returns m'
             ∧ Bypass.Match (Some m') ip
               = answer (λ c, bool_decide (c = code) || bool_decide (c ∈ cs)))
    ∧ (∃ m', Bypass.RemoveCountry (Some m) code = Returns m'
             ∧ Bypass.Match (Some m') ip
               = answer (λ c, bool_decide (c ≠ code) && bool_decide (c ∈ cs))).
Proof.
  intros Hnew.
  assert (∃ d, m = Bypass.mkGeoIPMatcher (Some d) (Bypass.build_country_set cs))
    as [d ->].
  { unfold Bypass.NewGeoIPMatcher in Hnew.
    repeat case_bool_decide; try done;
      (destruct (geoip2_Open _) as [d|]; [|done]);
      injection Hnew as <-; by exists d. }
  exists d. cbn.
  split; [done|]. split; [by destruct (Bypass.Country d ip)|].
  split; [|split; eexists; (split; [reflexivity|])]; cbn;
    (destruct (Bypass.Country d ip) as [country|]; [|done]).
  - by rewrite build_country_set_lookup.
  - cbn. destruct (decide (country = code)) as [->|Hne].
    + rewrite lookup_insert_eq. cbn. by rewrite bool_decide_eq_true_2.
    + rewrite lookup_insert_ne by done. rewrite build_country_set_lookup.
      by rewrite (bool_decide_eq_false_2 (country = code)).
  - cbn. destruct (decide (country = code)) as [->|Hne].
    + rewrite lookup_delete_eq. cbn.
      rewrite (bool_decide_eq_false_2 (code ≠ code)); [done|]. by intros ?.
    + rewrite lookup_delete_ne by done. rewrite build_country_set_lookup.
      by rewrite (bool_decide_eq_true_2 (country ≠ code)).
Qed.

Lemma Match_follows_country_list_witness :
  Bypass.Match
    (Some (Bypass.mkGeoIPMatcher (Some (Bypass.mkReader (λ _, Some "DE") None))
             (Bypass.build_country_set ["US"; "DE"])))
    [8; 8; 8; 8]
  = Returns ("DE", true).
Proof.
  destruct (Match_follows_country_list
              (λ _, Some (Bypass.mkReader (λ _, Some "DE") None)) "/db.mmdb"
              ["US"; "DE"]
              (Bypass.mkGeoIPMatcher (Some (Bypass.mkReader (λ _, Some "DE") None))
                 (Bypass.build_country_set ["US"; "DE"]))
              [8; 8; 8; 8] "FR" eq_refl)
    as (d & Hd & _ & Hm & _).
  injection Hd as <-. exact Hm.
Defined.

(** ** The bounds of the fake subnet *)

Section SubnetRange.
Import Netfilter GoNet.

Lemma land_mask_byte_check :
  forallb (λ j, forallb (λ a, Z.land a (mask_byte j) =? a / 2 ^ (8 - j) * 2 ^ (8 - j))
                  (seqZ 0 256))
    (seqZ 0 9) = true.
Proof. vm_compute. reflexivity. Qed.

Lemma land_mask_byte (a j : Z) :
  0 ≤ a < 256 → 0 ≤ j ≤ 8 →
  Z.land a (mask_byte j) = a / 2 ^ (8 - j) * 2 ^ (8 - j).
Proof.
  intros Ha Hj. pose proof land_mask_byte_check as H.
  rewrite forallb_forall in H.
  assert (Hj' : In j (seqZ 0 9)) by (apply list_elem_of_In, elem_of_seqZ; lia).
  specialize (H j Hj'). cbv beta in H. rewrite forallb_forall in H.
  assert (Ha' : In a (seqZ 0 256)) by (apply list_elem_of_In, elem_of_seqZ; lia).
  specialize (H a Ha'). by apply Z.eqb_eq in H.
Qed.

Lemma masked_equal_4 (a0 a1 a2 a3 m0 m1 m2 m3 b0 b1 b2 b3 : Z) :
  masked_equal [a0; a1; a2; a3] [m0; m1; m2; m3] [b0; b1; b2; b3] = true
  ↔ Z.land a0 m0 = Z.land b0 m0 ∧ Z.land a1 m1 = Z.land b1 m1
    ∧ Z.land a2 m2 = Z.land b2 m2 ∧ Z.land a3 m3 = Z.land b3 m3.
Proof.
  cbn [masked_equal]. repeat case_bool_decide; try (split; [done|]); try tauto.
Qed.

Lemma Contains_4 (base mask ip : IP) :
  length base = 4%nat → length mask = 4%nat → length ip = 4%nat →
  Contains (mkIPNet base mask) ip = masked_equal base mask ip.
Proof.
  intros Hb Hm Hi. unfold Contains, networkNumberAndMask, To4. cbn [net_IP net_Mask].
  unfold IPv4len.
  rewrite !(bool_decide_eq_true_2 (length base = 4%nat)) by done.
  rewrite !(bool_decide_eq_true_2 (length mask = 4%nat)) by done.
  rewrite !(bool_decide_eq_true_2 (length ip = 4%nat)) by done.
  rewrite (bool_decide_eq_false_2 (length base ≠ 4%nat)) by (intros ?; done).
  cbn. rewrite bool_decide_eq_false_2; [done|]. intros ?. congruence.
Qed.

Lemma mask_byte_clamp (ones : Z) :
  mask_byte ones = mask_byte (Z.max 0 (Z.min 8 ones)).
Proof.
  unfold mask_byte.
  repeat match goal with |- context [?a <=? ?b] => destruct (Z.leb_spec a b) end;
    try lia; try reflexivity.
  f_equal. f_equal. lia.
Qed.

Lemma land_mask_byte_clamp (a ones : Z) :
  0 ≤ a < 256 →
  Z.land a (mask_byte ones)
  = a / 2 ^ (8 - Z.max 0 (Z.min 8 ones)) * 2 ^ (8 - Z.max 0 (Z.min 8 ones)).
Proof. intros Ha. rewrite mask_byte_clamp. apply land_mask_byte; lia. Qed.

Ltac eval_powers :=
  repeat match goal with
         | |- context [2 ^ ?e] =>
             let v := eval vm_compute in (2 ^ e) in change (2 ^ e) with v
         | H : context [2 ^ ?e] |- _ =>
             let v := eval vm_compute in (2 ^ e) in change (2 ^ e) with v in H
         end.

Lemma Contains_prefix_range (base ip : IP) (p : Z) :
  valid_ip4 base → valid_ip4 ip → 0 ≤ p ≤ 32 →
  ip_to_Z base mod 2 ^ (32 - p) = 0 →
  Contains (mkIPNet base (prefix_mask4 p)) ip
  = bool_decide (ip_to_Z base ≤ ip_to_Z ip < ip_to_Z base + 2 ^ (32 - p)).
Proof.
  intros (a0 & a1 & a2 & a3 & -> & Ha0 & Ha1 & Ha2 & Ha3)%valid_ip4_inv.
  intros (b0 & b1 & b2 & b3 & -> & Hb0 & Hb1 & Hb2 & Hb3)%valid_ip4_inv.
  intros Hp Hal. rewrite Contains_4 by done.
  rewrite !ip_to_Z_4 in *.
  apply eq_true_iff_eq. rewrite bool_decide_eq_true.
  unfold prefix_mask4. rewrite masked_equal_4.
  rewrite !land_mask_byte_clamp by done.
  assert (Hin : p ∈ seqZ 0 33) by (apply elem_of_seqZ; lia).
  clear Hp. vm_compute seqZ in Hin.
  repeat (apply elem_of_cons in Hin as [->|Hin]);
    [..|by apply elem_of_nil in Hin];
    eval_powers; (split; [intros (?&?&?&?)|intros [? ?]; repeat split]);
    Z.div_mod_to_equations; lia.
Qed.

End SubnetRange.

Section Capacity.
Import Netfilter GoNet.

Lemma calls_fakeSubnet (ds : list string) (f : FakeDNSServer) :
  fakeSubnet (calls ds f) = fakeSubnet f.
Proof.
  revert f. induction ds as [|d ds IH]; intros f; [done|].
  cbn [calls foldl]. fold (calls ds (getFakeIP f d).2). rewrite IH.
  unfold getFakeIP. by destruct (mappings f !! _).
Qed.

Lemma constructed_start (f : FakeDNSServer) :
  constructed f →
  ip_to_Z (nextIP f)
  = (ip_to_Z (net_IP (fakeSubnet f)) + 1) mod address_space.
Proof.
  intros (P & c & Hnew & Hvalid). unfold NewFakeDNSServer in Hnew.
  destruct (P (cfg_FakeSubnet c)) as [subnet|]; [|done].
  injection Hnew as <-. cbn in *. by apply incrementIP_spec.
Qed.

Lemma block_fits (B S T : Z) :
  0 < S → 0 ≤ B → B mod S = 0 → B < S * T → B + S ≤ S * T.
Proof.
  intros HS HB Hmod Hlt.
  apply Z.mod_divide in Hmod as [q ->]; [|lia].
  assert (q < T) by nia. nia.
Qed.

Lemma fresh_address_in_block
    (f0 : FakeDNSServer) (ds : list string) (d : string) (p : Z) :
  constructed f0 →
  net_Mask (fakeSubnet f0) = prefix_mask4 p → 0 ≤ p ≤ 32 →
  ip_to_Z (net_IP (fakeSubnet f0)) mod 2 ^ (32 - p) = 0 →
  mappings (calls ds f0) !! Dns.CanonicalName d = None →
  Z.of_nat (GetMappingCount (calls ds f0)) + 1 < address_space →
  IsFakeIP (calls ds f0) (getFakeIP (calls ds f0) d).1
  = bool_decide (Z.of_nat (GetMappingCount (calls ds f0)) + 1 < 2 ^ (32 - p)).
Proof.
  intros Hf Hmask Hp Hal Hfresh Hk.
  pose proof (constructed_start _ Hf) as Hstart.
  pose proof Hf as (P & c & Hnew & Hbase).
  destruct (allocator_sound_calls ds f0 (allocator_sound_init _ Hf)) as (Hnext & _ & _).
  destruct (allocator_in_order_calls ds f0 Hf) as (_ & Hcur & _); [lia|].
  rewrite (getFakeIP_miss _ _ Hfresh). cbn [fst].
  unfold IsFakeIP. rewrite calls_fakeSubnet.
  destruct (fakeSubnet f0) as [base mask] eqn:Hsub. cbn [net_IP net_Mask] in *.
  subst mask. rewrite Contains_prefix_range by done.
  unfold GetMappingCount in *.
  set (k := Z.of_nat (size (mappings (calls ds f0)))) in *.
  set (N := ip_to_Z (nextIP (calls ds f0))) in *.
  pose proof (ip_to_Z_range _ Hnext) as HN. fold N in HN.
  pose proof (ip_to_Z_range _ Hbase) as HB.
  set (B := ip_to_Z base) in *.
  rewrite Hstart in Hcur. rewrite Zminus_mod_idemp_r in Hcur.
  unfold address_space in *.
  assert (HA : 2 ^ 32 = 2 ^ (32 - p) * 2 ^ p).
  { rewrite <- Z.pow_add_r by lia. f_equal. lia. }
  assert (HS : 0 < 2 ^ (32 - p)) by (apply Z.pow_pos_nonneg; lia).
  set (S := 2 ^ (32 - p)) in *.
  assert (Hfit : B + S ≤ 2 ^ 32).
  { rewrite HA. apply block_fits; [done|lia|done|]. rewrite <- HA. lia. }
  assert (Hk0 : 0 ≤ k) by (subst k; lia).
  assert (HNk : N = B + 1 + k ∨ N = B + 1 + k - 2 ^ 32).
  { rewrite (Z.mod_small k) in Hcur by lia.
    assert (Hdiv : (2 ^ 32 | N - (B + 1) - k)).
    { apply Z.mod_divide; [done|].
      rewrite Zminus_mod, Hcur.
      rewrite (Z.mod_small k) by lia. by rewrite Z.sub_diag. }
    destruct Hdiv as [t Ht]. assert (t = 0 ∨ t = -1) by lia. lia. }
  apply bool_decide_ext. lia.
Qed.

End Capacity.

(** X30: the allocator never looks at the bounds of the fake subnet.  On
    a server constructed for an IPv4 block with prefix length [p], the
    address handed out for a new name lies inside the block (as [IsFakeIP]
    judges it) exactly while fewer than [2^(32-p) - 1] names are mapped:
    from then on the addresses handed out lie outside the block.  (Stated
    for fewer than [2^32 - 1] mapped names.) *)
Theorem getFakeIP_leaves_the_fake_subnet
    (f0 : Netfilter.FakeDNSServer) (ds : list string) (d : string) (p : Z) :
  Netfilter.constructed f0 →
  net_Mask (Netfilter.fakeSubnet f0) = GoNet.prefix_mask4 p → 0 ≤ p ≤ 32 →
  Netfilter.ip_to_Z (net_IP (Netfilter.fakeSubnet f0)) mod 2 ^ (32 - p) = 0 →
  Netfilter.mappings (Netfilter.calls ds f0) !! Dns.CanonicalName d = None →
  Z.of_nat (Netfilter.GetMappingCount (Netfilter.calls ds f0)) + 1
    < Netfilter.address_space →
  Netfilter.IsFakeIP (Netfilter.calls ds f0)
    (Netfilter.getFakeIP (Netfilter.calls ds f0) d).1
  = bool_decide (Z.of_nat (Netfilter.GetMappingCount (Netfilter.calls ds f0)) + 1
                 < 2 ^ (32 - p)).
Proof. exact (fresh_address_in_block f0 ds d p). Qed.

Lemma getFakeIP_leaves_the_fake_subnet_witness :
  Netfilter.IsFakeIP Examples.fake_server
    (Netfilter.getFakeIP Examples.fake_server "example.com").1 = true.
Proof.
  apply (getFakeIP_leaves_the_fake_subnet Examples.fake_server [] "example.com" 15
           fake_server_constructed eq_refl);
    [lia|reflexivity|reflexivity|reflexivity].
Defined.

(** The block [198.18.0.0/15] of the tests holds 2^17 addresses; the
    allocator starts at the second and skips none, so the name number
    2^17 - 1 (counting from 0) gets [198.20.0.0], which [IsFakeIP]
    rejects. *)
Lemma block_exhausted_after (n : nat) :
  Z.of_nat n = 131071 →
  let f := Netfilter.calls (Netfilter.numbered_domains n) Examples.fake_server in
  Netfilter.IsFakeIP f (Netfilter.getFakeIP f "131071.").1 = false.
Proof.
  intros Hn f.
  destruct (numbered_keys Examples.fake_server n fake_server_constructed)
    as [Hcount Hkeys]. fold f in Hcount, Hkeys.
  assert (Hname : Dns.CanonicalName "131071." = Netfilter.numbered_domain (Z.of_nat n)).
  { rewrite Hn. vm_compute. reflexivity. }
  subst f.
  rewrite (fresh_address_in_block Examples.fake_server _ "131071." 15
             fake_server_constructed eq_refl).
  - rewrite Hcount, Hn. reflexivity.
  - lia.
  - reflexivity.
  - rewrite Hname. apply eq_None_not_Some. intros (i & Hi & Heq)%Hkeys.
    apply numbered_domain_inj in Heq. lia.
  - rewrite Hcount, Hn. reflexivity.
Qed.

Example fake_subnet_exhausted :
  let f := Netfilter.calls (Netfilter.numbered_domains (Z.to_nat 131071))
             Examples.fake_server in
  Netfilter.IsFakeIP f (Netfilter.getFakeIP f "131071.").1 = false.
Proof. exact (block_exhausted_after (Z.to_nat 131071) (Z2Nat.id 131071 ltac:(lia))). Qed.
